(** * The Aqara vendor-API client, embedded in Rocq

    A shallow embedding of [src/aqara-client.ts], [src/utils.ts] and the
    parts of [src/index.ts] that call into them, followed by the properties
    the specification states about them.

    Conventions.
    - JavaScript strings are [string]; numbers that the code only uses as
      integers (page numbers, response codes, millisecond time stamps) are [Z].
    - A property that may be absent ([accessToken?], [msgDetails?], a missing
      environment variable) is an [option]; [None] is [undefined].
    - Plain objects used as dictionaries ([process.env], the store of
      node-cache) are [gmap string _].
    - An [async] method is a value of the free monad [Prog]: a tree whose
      nodes are the cache operations and the one suspension point of the
      client, the HTTP POST scheduled through the rate limiter. *)

From Stdlib Require Import ZArith String Ascii List Decimal DecimalString DecimalZ Lia.
From stdpp Require Import gmap strings list.

Local Open Scope string_scope.
Local Open Scope list_scope.
Local Open Scope Z_scope.

(** ** JavaScript primitives used by the client *)

Module JS.

(** [ToBoolean] on a string: only the empty string is falsy. *)
Definition truthyString (s : string) : bool :=
  match s with EmptyString => false | String _ _ => true end.

(** [ToBoolean] on a [string | undefined]. *)
Definition truthy (o : option string) : bool :=
  match o with Some s => truthyString s | None => false end.

(** [Number.prototype.toString] on an integer (and [`${n}`]). *)
Definition numberToString (n : Z) : string :=
  NilZero.string_of_int (Z.to_int n).

(** [Array.prototype.join]. *)
Fixpoint join (sep : string) (parts : list string) : string :=
  match parts with
  | [] => ""
  | [p] => p
  | p :: rest => p +:+ sep +:+ join sep rest
  end.

(** [String.prototype.includes]. *)
Fixpoint includes (hay needle : string) : bool :=
  String.prefix needle hay ||
  match hay with
  | EmptyString => false
  | String _ rest => includes rest needle
  end.

(** The values a property read on a plain object can produce here. *)
Inductive Value : Type :=
| VUndefined
| VString (s : string)
| VFunction (name : string)
| VObject (name : string).

Definition truthyValue (v : Value) : bool :=
  match v with
  | VUndefined => false
  | VString s => truthyString s
  | VFunction _ | VObject _ => true
  end.

(** [a || b]. *)
Definition or (a b : Value) : Value := if truthyValue a then a else b.

(** The properties every object literal inherits from [Object.prototype]. *)
Definition objectPrototype : gmap string Value :=
  list_to_map
    [ ("constructor", VFunction "Object");
      ("__defineGetter__", VFunction "__defineGetter__");
      ("__defineSetter__", VFunction "__defineSetter__");
      ("hasOwnProperty", VFunction "hasOwnProperty");
      ("__lookupGetter__", VFunction "__lookupGetter__");
      ("__lookupSetter__", VFunction "__lookupSetter__");
      ("isPrototypeOf", VFunction "isPrototypeOf");
      ("propertyIsEnumerable", VFunction "propertyIsEnumerable");
      ("toString", VFunction "toString");
      ("valueOf", VFunction "valueOf");
      ("__proto__", VObject "Object.prototype");
      ("toLocaleString", VFunction "toLocaleString") ].

(** [obj[key]] on an object literal whose own properties are the strings
    of [own]: own properties first, then the prototype chain. *)
Definition getProperty (own : gmap string string) (key : string) : Value :=
  match own !! key with
  | Some s => VString s
  | None => default VUndefined (objectPrototype !! key)
  end.

End JS.

(** ** types.ts *)

Record AqaraConfig : Type := {
  appId : string;
  appKey : string;
  keyId : string;
  appSecret : string;
  region : string;
  accessToken : option string
}.

Record AqaraResponse (T : Type) : Type := {
  code : Z;
  requestId : string;
  message : string;
  msgDetails : option string;
  result : option T;
  data : option T
}.
Arguments code {T} _.
Arguments requestId {T} _.
Arguments message {T} _.
Arguments msgDetails {T} _.
Arguments result {T} _.
Arguments data {T} _.

Record ResourceInfo : Type := {
  resourceId : string;
  resourceName : string;
  access : list string;
  unit_ : option string;
  ri_description : option string
}.

Record Device : Type := {
  did : string;
  uid : string;
  name : string;
  model : string;
  modelType : Z;
  online : bool;
  firmwareVersion : string;
  createTime : Z;
  updateTime : Z;
  resourceInfo : option (list ResourceInfo)
}.

Record Scene : Type := {
  sceneId : string;
  sc_name : string;
  sc_description : option string;
  enable : bool;
  sc_createTime : Z;
  sc_updateTime : Z
}.

(** ** AqaraClient.getBaseURL *)

Definition domains : gmap string string :=
  list_to_map
    [ ("cn", "https://open-cn.aqara.com");
      ("usa", "https://open-usa.aqara.com");
      ("eu", "https://open-ger.aqara.com");
      ("kr", "https://open-kr.aqara.com");
      ("ru", "https://open-ru.aqara.com");
      ("sg", "https://open-sg.aqara.com") ].

(** [return domains[region] || domains.usa;] *)
Definition getBaseURL (region : string) : JS.Value :=
  JS.or (JS.getProperty domains region) (JS.getProperty domains "usa").

Definition regions : list string := ["cn"; "usa"; "eu"; "kr"; "ru"; "sg"].

(** ** The built-in [Date], as far as [parseTimeString] uses it

    [new Date(s)] for a string, [getTime] and [toISOString], following
    ECMA-262 (Date Time String Format, MakeDay, MakeTime, TimeClip).  What the
    standard leaves to the engine is a field of [Platform]: the fallback
    parser for strings outside the standard format, and the local time
    zone. *)

Module JSDate.

Record Platform : Type := {
  (** Date.parse on a string that is not in the Date Time String Format:
      the time value, or [None] for NaN. *)
  legacyParse : string -> option Z;
  (** UTC(t): the UTC time value of a local time value. *)
  utcOfLocal : Z -> Z
}.

Definition msPerDay : Z := 86400000.

Definition isLeapYear (y : Z) : bool :=
  (y mod 4 =? 0) && (negb (y mod 100 =? 0) || (y mod 400 =? 0)).

Definition DayFromYear (y : Z) : Z :=
  365 * (y - 1970) + (y - 1969) / 4 - (y - 1901) / 100 + (y - 1601) / 400.

(** Days before the first of month [m] (0-based) in a year. *)
Definition daysBeforeMonth (leap : bool) (m : Z) : Z :=
  let l := if leap then 1 else 0 in
  match m with
  | 0 => 0 | 1 => 31 | 2 => 59 + l | 3 => 90 + l | 4 => 120 + l
  | 5 => 151 + l | 6 => 181 + l | 7 => 212 + l | 8 => 243 + l
  | 9 => 273 + l | 10 => 304 + l | _ => 334 + l
  end.

Definition MakeTime (h m s ms : Z) : Z :=
  h * 3600000 + m * 60000 + s * 1000 + ms.

(** MakeDay(year, month, date) with [month] 0-based. *)
Definition MakeDay (year month date : Z) : Z :=
  let ym := year + month / 12 in
  let mn := month mod 12 in
  DayFromYear ym + daysBeforeMonth (isLeapYear ym) mn + date - 1.

Definition MakeDate (day time : Z) : Z := day * msPerDay + time.

(** TimeClip: [None] is NaN. *)
Definition TimeClip (t : Z) : option Z :=
  if Z.abs t <=? 8640000000000000 then Some t else None.

(** The largest [y] with [DayFromYear y <= d]. *)
Definition yearFromDay (d : Z) : Z :=
  let y := 1970 + (d * 400) / 146097 in
  if DayFromYear (y + 1) <=? d then y + 1
  else if DayFromYear y <=? d then y
  else y - 1.

(** The 0-based month holding day [d] (0-based) of a year. *)
Definition monthFromDayInYear (leap : bool) (d : Z) : Z :=
  if d <? daysBeforeMonth leap 1 then 0
  else if d <? daysBeforeMonth leap 2 then 1
  else if d <? daysBeforeMonth leap 3 then 2
  else if d <? daysBeforeMonth leap 4 then 3
  else if d <? daysBeforeMonth leap 5 then 4
  else if d <? daysBeforeMonth leap 6 then 5
  else if d <? daysBeforeMonth leap 7 then 6
  else if d <? daysBeforeMonth leap 8 then 7
  else if d <? daysBeforeMonth leap 9 then 8
  else if d <? daysBeforeMonth leap 10 then 9
  else if d <? daysBeforeMonth leap 11 then 10
  else 11.

(** The character of a decimal digit. *)
Definition digitChar (d : Z) : ascii := ascii_of_N (Z.to_N (48 + d)).

(** Decimal digits of [n >= 0], zero-padded to [width] characters. *)
Fixpoint padDigits (width : nat) (n : Z) (acc : string) : string :=
  match width with
  | O => acc
  | S w => padDigits w (n / 10) (String (digitChar (n mod 10)) acc)
  end.

Definition pad (width : nat) (n : Z) : string := padDigits width n "".

(** YYYY-MM-DDTHH:mm:ss.sssZ, the year with a sign and six digits when it is
    outside 0..9999. *)
Definition formatISO (y month date h m s ms : Z) : string :=
  let year :=
    if (0 <=? y) && (y <=? 9999) then pad 4 y
    else if y <? 0 then "-" +:+ pad 6 (- y)
    else "+" +:+ pad 6 y in
  year +:+ "-" +:+ pad 2 month +:+ "-" +:+ pad 2 date +:+ "T"
    +:+ pad 2 h +:+ ":" +:+ pad 2 m +:+ ":" +:+ pad 2 s +:+ "." +:+ pad 3 ms
    +:+ "Z".

(** Date.prototype.toISOString for a finite time value. *)
Definition toISOString (t : Z) : string :=
  let day := t / msPerDay in
  let ms := t mod msPerDay in
  let y := yearFromDay day in
  let leap := isLeapYear y in
  let dayInYear := day - DayFromYear y in
  let m := monthFromDayInYear leap dayInYear in
  let date := dayInYear - daysBeforeMonth leap m + 1 in
  formatISO y (m + 1) date
    (ms / 3600000) (ms / 60000 mod 60) (ms / 1000 mod 60) (ms mod 1000).

(** *** Parsing the Date Time String Format *)

Definition digitValue (c : ascii) : option Z :=
  let n := Z.of_N (N_of_ascii c) in
  if (48 <=? n) && (n <=? 57) then Some (n - 48) else None.

(** Exactly [n] decimal digits. *)
Fixpoint digits (n : nat) (acc : Z) (s : string) : option (Z * string) :=
  match n with
  | O => Some (acc, s)
  | S n' =>
      match s with
      | String c rest =>
          match digitValue c with
          | Some d => digits n' (10 * acc + d) rest
          | None => None
          end
      | EmptyString => None
      end
  end.

(** A literal character: the rest of the input when it starts with [c]. *)
Definition expect (c : ascii) (s : string) : option string :=
  match s with
  | String c' rest => if Ascii.eqb c c' then Some rest else None
  | EmptyString => None
  end.

Record Fields : Type := {
  f_year : Z;
  f_minusZero : bool;          (* the year was written -000000 *)
  f_month : Z;                 (* 1..12 as written *)
  f_day : Z;
  f_time : option (Z * Z * Z * Z);
  f_offset : option (Z * Z * Z)  (* sign, HH, mm; None: no offset written *)
}.

(** YYYY or the expanded form with a sign and six digits. *)
Definition parseYear (s : string) : option (Z * bool * string) :=
  match expect "+" s, expect "-" s with
  | Some rest, _ => '(y, r) ← digits 6 0 rest; Some (y, false, r)
  | None, Some rest => '(y, r) ← digits 6 0 rest; Some (- y, y =? 0, r)
  | None, None => '(y, r) ← digits 4 0 s; Some (y, false, r)
  end.

(** An optional "-NN" group. *)
Definition parseDashed (s : string) : option (option Z * string) :=
  match expect "-" s with
  | Some rest => '(n, r) ← digits 2 0 rest; Some (Some n, r)
  | None => Some (None, s)
  end.

(** "Z", or a sign and HH:mm, or nothing; the input must end there. *)
Definition parseOffset (s : string) : option (option (Z * Z * Z)) :=
  match s with
  | EmptyString => Some None
  | _ =>
      match expect "Z" s, expect "+" s, expect "-" s with
      | Some EmptyString, _, _ => Some (Some (1, 0, 0))
      | Some _, _, _ => None
      | None, signed, signed' =>
          '(sgn, rest) ← match signed, signed' with
                         | Some rest, _ => Some (1, rest)
                         | None, Some rest => Some (-1, rest)
                         | None, None => None
                         end;
          '(h, r1) ← digits 2 0 rest;
          r2 ← expect ":" r1;
          '(m, r3) ← digits 2 0 r2;
          match r3 with
          | EmptyString => Some (Some (sgn, h, m))
          | _ => None
          end
      end
  end.

(** HH:mm, HH:mm:ss or HH:mm:ss.sss, then the offset. *)
Definition parseTime (s : string)
    : option ((Z * Z * Z * Z) * option (Z * Z * Z)) :=
  '(h, r1) ← digits 2 0 s;
  r2 ← expect ":" r1;
  '(m, r3) ← digits 2 0 r2;
  match expect ":" r3 with
  | Some r4 =>
      '(sec, r5) ← digits 2 0 r4;
      match expect "." r5 with
      | Some r6 =>
          '(ms, r7) ← digits 3 0 r6;
          off ← parseOffset r7; Some ((h, m, sec, ms), off)
      | None => off ← parseOffset r5; Some ((h, m, sec, 0), off)
      end
  | None => off ← parseOffset r3; Some ((h, m, 0, 0), off)
  end.

Definition parseFields (s : string) : option Fields :=
  '(y, mz, r1) ← parseYear s;
  '(mo, r2) ← parseDashed r1;
  '(dd, r3) ← (match mo with
               | Some _ => parseDashed r2
               | None => Some (None, r2)
               end);
  match r3 with
  | EmptyString =>
      Some {| f_year := y; f_minusZero := mz; f_month := default 1 mo;
              f_day := default 1 dd; f_time := None; f_offset := None |}
  | _ =>
      r4 ← expect "T" r3;
      '(tm, off) ← parseTime r4;
      Some {| f_year := y; f_minusZero := mz; f_month := default 1 mo;
              f_day := default 1 dd; f_time := Some tm; f_offset := off |}
  end.

(** The element values the format allows. *)
Definition inBounds (f : Fields) : bool :=
  negb (f_minusZero f)
  && (1 <=? f_month f) && (f_month f <=? 12)
  && (1 <=? f_day f) && (f_day f <=? 31)
  && match f_time f with
     | None => true
     | Some (h, m, s, ms) =>
         ((h <=? 23) || ((h =? 24) && (m =? 0) && (s =? 0) && (ms =? 0)))
         && (m <=? 59) && (s <=? 59)
     end
  && match f_offset f with
     | Some (_, h, m) => (h <=? 23) && (m <=? 59)
     | None => true
     end.

Definition timeValue (pf : Platform) (f : Fields) : option Z :=
  let day := MakeDay (f_year f) (f_month f - 1) (f_day f) in
  match f_time f with
  | None => TimeClip (MakeDate day 0)
  | Some (h, m, s, ms) =>
      let t := MakeDate day (MakeTime h m s ms) in
      match f_offset f with
      | Some (sgn, oh, om) => TimeClip (t - sgn * (oh * 60 + om) * 60000)
      | None => TimeClip (utcOfLocal pf t)
      end
  end.

(** Date.parse: the time value of [new Date(s)], [None] for an Invalid
    Date (getTime() is NaN). *)
Definition parse (pf : Platform) (s : string) : option Z :=
  match parseFields s with
  | Some f => if inBounds f then timeValue pf f else None
  | None => legacyParse pf s
  end.

(** An engine that implements the standard format only, in UTC. *)
Definition strictUTC : Platform :=
  {| legacyParse := fun _ => None; utcOfLocal := fun t => t |}.

End JSDate.

(** ** utils.ts *)

(** What a [throw] can carry in this program. *)
Inductive JSError : Type :=
| AqaraError (code : option Z) (message : option string)
             (details : option string) (requestId : option string)
| Error (message : string)
| TransportError (code : option string) (message : string).

(** The outcome of a synchronous call that may throw. *)
Inductive Completion (A : Type) : Type :=
| Normal (a : A)
| Throw (e : JSError).
Arguments Normal {A} _.
Arguments Throw {A} _.

(** [response.data] as axios hands it over: absent, [null], a string (the
    body did not parse as JSON; the empty string when there was none), or
    the parsed envelope. *)
Inductive Body (T : Type) : Type :=
| BodyUndefined
| BodyNull
| BodyText (s : string)
| BodyEnvelope (e : AqaraResponse T).
Arguments BodyUndefined {T}.
Arguments BodyNull {T}.
Arguments BodyText {T} _.
Arguments BodyEnvelope {T} _.

Definition invalidResponseFormat : string :=
  "Invalid response format from Aqara API".

(** [handleAqaraResponse]: [response.data] is returned as it is when its
    code is 0.  A non-empty string is truthy and has none of the envelope's
    properties, so [code !== 0] holds with every field undefined. *)
Definition handleAqaraResponse {T} (responseData : Body T)
    : Completion (AqaraResponse T) :=
  match responseData with
  | BodyEnvelope e =>
      if negb (code e =? 0)
      then Throw (AqaraError (Some (code e)) (Some (message e))
                             (msgDetails e) (Some (requestId e)))
      else Normal e
  | BodyText s =>
      if JS.truthyString s
      then Throw (AqaraError None None None None)
      else Throw (Error invalidResponseFormat)
  | BodyUndefined | BodyNull => Throw (Error invalidResponseFormat)
  end.

(** The error axios rejects with: [error.response] (its status and, when the
    body is truthy, the body's fields), [error.code] and [error.message]. *)
Record ErrorBody : Type := {
  eb_code : option Z;
  eb_message : option string;
  eb_msgDetails : option string;
  eb_requestId : option string
}.

Record AxiosError : Type := {
  ae_response : option (Z * option ErrorBody);
  ae_code : option string;
  ae_message : string
}.

(** [handleAqaraError] for the error of a failed POST; it always throws, and
    the result is what it throws. *)
Definition handleAqaraError (error : AxiosError) : JSError :=
  match ae_response error with
  | Some (status, Some body) =>
      AqaraError
        (Some (match eb_code body with
               | Some c => if c =? 0 then status else c
               | None => status
               end))
        (Some (if JS.truthy (eb_message body)
               then default "" (eb_message body)
               else ae_message error))
        (eb_msgDetails body) (eb_requestId body)
  | _ =>
      if bool_decide (ae_code error = Some "ECONNREFUSED") then
        Error "Unable to connect to Aqara API. Please check your network connection."
      else if bool_decide (ae_code error = Some "ETIMEDOUT") then
        Error "Request to Aqara API timed out. Please try again."
      else TransportError (ae_code error) (ae_message error)
  end.

Definition requiredEnvVars : list string :=
  ["AQARA_APP_ID"; "AQARA_APP_KEY"; "AQARA_KEY_ID"; "AQARA_APP_SECRET"].

(** [!process.env[envVar]]: unset, or set to the empty string. *)
Definition envMissing (env : gmap string string) (envVar : string) : bool :=
  negb (JS.truthy (env !! envVar)).

Definition missingMessage (missing : list string) : string :=
  "Missing required environment variables: " +:+ JS.join ", " missing +:+ ". "
  +:+ "Please check your .env file and ensure all Aqara API credentials are provided.".

Definition validateEnvironment (env : gmap string string) : Completion unit :=
  let missing := List.filter (envMissing env) requiredEnvVars in
  if (0 <? Z.of_nat (length missing))
  then Throw (Error (missingMessage missing))
  else Normal tt.

(** [error.message]; [super(undefined)] leaves the empty message. *)
Definition errorMessage (e : JSError) : string :=
  match e with
  | AqaraError _ m _ _ => default "" m
  | Error m => m
  | TransportError _ m => m
  end.

(** [error.toString()]: the name, then the message when there is one. *)
Definition errorToString (e : JSError) : string :=
  let name := match e with
              | AqaraError _ _ _ _ => "AqaraError"
              | Error _ => "Error"
              | TransportError _ _ => "AxiosError"
              end in
  if JS.truthyString (errorMessage e)
  then name +:+ ": " +:+ errorMessage e
  else name.

Definition formatError (e : JSError) : string :=
  match e with
  | AqaraError c m details _ =>
      "Aqara API Error ("
      +:+ match c with Some n => JS.numberToString n | None => "undefined" end
      +:+ "): " +:+ default "" m
      +:+ (if JS.truthy details then " - " +:+ default "" details else "")
  | _ =>
      "Error: " +:+ (if JS.truthyString (errorMessage e)
                     then errorMessage e else errorToString e)
  end.

(** [try { body } catch (error) { handler }] around synchronous code. *)
Definition tryCatch {A} (body : Completion A) (handler : JSError -> Completion A)
    : Completion A :=
  match body with
  | Normal a => Normal a
  | Throw e => handler e
  end.

Definition doubleQuote : string := String (ascii_of_N 34) EmptyString.

Definition invalidTimeFormat : string :=
  "Invalid time format. Please use ISO 8601 format (e.g., " +:+ doubleQuote
  +:+ "2024-01-01T00:00:00Z" +:+ doubleQuote +:+ ") or standard date strings.".

(** [parseTimeString]: the string goes through [new Date]; an Invalid Date
    throws inside the [try], and the [catch] replaces whatever was thrown. *)
Definition parseTimeString (pf : JSDate.Platform) (timeStr : string)
    : Completion string :=
  tryCatch
    (match JSDate.parse pf timeStr with
     | None => Throw (Error "Invalid date format")
     | Some tv => Normal (JSDate.toISOString tv)
     end)
    (fun _ => Throw (Error invalidTimeFormat)).

(** ** aqara-client.ts: request signing *)

(** [array.push(...items)]: the array with the items appended. *)
Definition push (array items : list string) : list string := app array items.

Section Signing.

(** [String.prototype.toLowerCase] and
    [crypto.createHmac('sha256', key).update(msg).digest('hex')] are the
    platform's; the signer is modelled over any such pair. *)
Variable toLowerCase : string -> string.
Variable hmacSha256Hex : string -> string -> string.

(** The array [signParams] after the conditional and the unconditional
    [push].  [nonce] is [crypto.randomBytes(16).toString('hex')] and
    [timestamp] is [Date.now()]. *)
Definition signParams (config : AqaraConfig) (nonce : string) (timestamp : Z)
    : list string :=
  let signParams : list string := [] in
  let signParams :=
    if JS.truthy (accessToken config)
    then push signParams ["accesstoken=" +:+ toLowerCase (default "" (accessToken config))]
    else signParams in
  push signParams
    [ "appid=" +:+ toLowerCase (appId config);
      "keyid=" +:+ toLowerCase (keyId config);
      "nonce=" +:+ toLowerCase nonce;
      "time=" +:+ JS.numberToString timestamp ].

Definition signString (config : AqaraConfig) (nonce : string) (timestamp : Z)
    : string :=
  JS.join "&" (signParams config nonce timestamp).

Definition sign (config : AqaraConfig) (nonce : string) (timestamp : Z)
    : string :=
  hmacSha256Hex (appSecret config) (signString config nonce timestamp).

(** [signRequest] on the headers of the outgoing request ([None]: the
    request has no headers object yet). *)
Definition signRequest (config : AqaraConfig) (nonce : string) (timestamp : Z)
    (headers : option (gmap string string)) : gmap string string :=
  let headers := default ∅ headers in
  let headers := <["Appid" := appId config]> headers in
  let headers := <["Keyid" := keyId config]> headers in
  let headers := <["Nonce" := nonce]> headers in
  let headers := <["Time" := JS.numberToString timestamp]> headers in
  let headers := <["Sign" := sign config nonce timestamp]> headers in
  let headers := <["Lang" := "en"]> headers in
  if JS.truthy (accessToken config)
  then <["Accesstoken" := default "" (accessToken config)]> headers
  else headers.

End Signing.

(** ASCII lower-casing, for running the signer on examples. *)
Definition asciiLower (c : ascii) : ascii :=
  let n := N_of_ascii c in
  if ((65 <=? n) && (n <=? 90))%N then ascii_of_N (n + 32) else c.

Fixpoint asciiToLowerCase (s : string) : string :=
  match s with
  | EmptyString => EmptyString
  | String c rest => String (asciiLower c) (asciiToLowerCase rest)
  end.

(** ** aqara-client.ts: cache, limiter and the operations *)

(** The payload types the client instantiates [AqaraResponse<T>] with. *)
Inductive Kind : Type := KDevices | KScenes | KAny.

(** [any]: a payload the client never looks into, kept as its JSON text. *)
Definition Any : Type := string.

Definition payload (k : Kind) : Type :=
  match k with
  | KDevices => list Device
  | KScenes => list Scene
  | KAny => Any
  end.

(** What node-cache holds: the store is untyped, so one type for every
    response the client puts there. *)
Inductive Response : Type :=
| RDevices (r : AqaraResponse (list Device))
| RScenes (r : AqaraResponse (list Scene))
| RAny (r : AqaraResponse Any).

Definition inject (k : Kind) : AqaraResponse (payload k) -> Response :=
  match k with
  | KDevices => RDevices
  | KScenes => RScenes
  | KAny => RAny
  end.

(** [cache.get<AqaraResponse<T>>(key)] asserts the type of what it finds;
    [project] is that assertion, [None] when the stored value is of another
    type. *)
Definition project (k : Kind) (r : Response) : option (AqaraResponse (payload k)) :=
  match k, r with
  | KDevices, RDevices e => Some e
  | KScenes, RScenes e => Some e
  | KAny, RAny e => Some e
  | _, _ => None
  end.

(** The value written to a device resource: string, number or boolean. *)
Inductive ResourceValue : Type :=
| ValString (s : string)
| ValNumber (n : Z)
| ValBool (b : bool).

(** The [data] object of a request body. *)
Inductive RequestData : Type :=
| PageQuery (pageNum pageSize : Z)
| DeviceInfoQuery (dids : list string)
| ResourceWrite (did : string) (resources : list (string * string * ResourceValue))
| SceneRun (sceneId : string)
| HistoryFetch (subjectId : string) (resourceIds : list string)
               (startTime endTime : string) (pageNum pageSize : Z).

(** The body [{intent, data}] POSTed to [/v3.0/open/api]. *)
Record Request : Type := {
  intent : string;
  reqData : RequestData
}.

(** How a POST settles: a response with its body, or axios' rejection. *)
Inductive HttpOutcome (T : Type) : Type :=
| Responded (body : Body T)
| Rejected (error : AxiosError).
Arguments Responded {T} _.
Arguments Rejected {T} _.

(** The limiter's options, as the constructor sets them. *)
Definition limiter_minTime : Z := 200.
Definition limiter_maxConcurrent : Z := 3.

(** An asynchronous computation of the client.  [Schedule] is
    [limiter.schedule(async () => client.post(...))]: the only point where
    a method waits for the network; the cache operations between two of
    them run without interruption.  An [await] on a promise that is already
    settled is followed by code that touches no shared state, so it is not
    a node of its own.  [Confused] marks a cached value that is not of the
    type the reading method asserts. *)
Inductive Prog (A : Type) : Type :=
| Ret (a : A)
| Raise (e : JSError)
| Confused
| CacheGet (key : string) (k : option Response -> Prog A)
| CacheSet (key : string) (val : Response) (ttl : Z) (k : Prog A)
| CacheDel (key : string) (k : Prog A)
| CacheFlushAll (k : Prog A)
| Schedule (kind : Kind) (req : Request)
           (k : HttpOutcome (payload kind) -> Prog A).
Arguments Ret {A} _.
Arguments Raise {A} _.
Arguments Confused {A}.
Arguments CacheGet {A} _ _.
Arguments CacheSet {A} _ _ _ _.
Arguments CacheDel {A} _ _.
Arguments CacheFlushAll {A} _.
Arguments Schedule {A} _ _ _.

Fixpoint bind {A B} (p : Prog A) (f : A -> Prog B) : Prog B :=
  match p with
  | Ret a => f a
  | Raise e => Raise e
  | Confused => Confused
  | CacheGet key k => CacheGet key (fun r => bind (k r) f)
  | CacheSet key val ttl k => CacheSet key val ttl (bind k f)
  | CacheDel key k => CacheDel key (bind k f)
  | CacheFlushAll k => CacheFlushAll (bind k f)
  | Schedule kind req k => Schedule kind req (fun o => bind (k o) f)
  end.

(** [try { await p } catch (error) { handler }]. *)
Fixpoint catch {A} (p : Prog A) (handler : JSError -> Prog A) : Prog A :=
  match p with
  | Ret a => Ret a
  | Raise e => handler e
  | Confused => Confused
  | CacheGet key k => CacheGet key (fun r => catch (k r) handler)
  | CacheSet key val ttl k => CacheSet key val ttl (catch k handler)
  | CacheDel key k => CacheDel key (catch k handler)
  | CacheFlushAll k => CacheFlushAll (catch k handler)
  | Schedule kind req k => Schedule kind req (fun o => catch (k o) handler)
  end.

(** [const x = await p; q] *)
Notation "'await' x '<-' p ';' q" := (bind p (fun x => q))
  (at level 10, x name, p at level 100, q at level 200).

Definition lift {A} (c : Completion A) : Prog A :=
  match c with
  | Normal a => Ret a
  | Throw e => Raise e
  end.

(** [makeRequest]: the POST goes through the limiter; a rejection passes
    through the response interceptor ([handleAqaraError]), a response
    through [handleAqaraResponse]. *)
Definition makeRequest (kind : Kind) (intent : string) (data : RequestData)
    : Prog (AqaraResponse (payload kind)) :=
  Schedule kind {| intent := intent; reqData := data |}
    (fun settled =>
       match settled with
       | Responded body => lift (handleAqaraResponse body)
       | Rejected error => Raise (handleAqaraError error)
       end).

(** [cache.get<AqaraResponse<T>>(key)] followed by [if (cached)]: a cached
    response is an object, hence truthy. *)
Definition cacheGetAs {A} (kind : Kind) (key : string)
    (k : option (AqaraResponse (payload kind)) -> Prog A) : Prog A :=
  CacheGet key (fun cached =>
    match cached with
    | None => k None
    | Some r =>
        match project kind r with
        | Some e => k (Some e)
        | None => Confused
        end
    end).

Definition deviceListKey (pageNum pageSize : Z) : string :=
  "devices_" +:+ JS.numberToString pageNum +:+ "_" +:+ JS.numberToString pageSize.

Definition deviceStatusKey (deviceId : string) : string :=
  "device_status_" +:+ deviceId.

Definition sceneListKey (pageNum pageSize : Z) : string :=
  "scenes_" +:+ JS.numberToString pageNum +:+ "_" +:+ JS.numberToString pageSize.

Definition getDeviceList (pageNum pageSize : Z) : Prog (AqaraResponse (list Device)) :=
  let cacheKey := deviceListKey pageNum pageSize in
  cacheGetAs KDevices cacheKey (fun cached =>
    match cached with
    | Some hit => Ret hit
    | None =>
        await result <- makeRequest KDevices "query.device.list" (PageQuery pageNum pageSize);
        CacheSet cacheKey (RDevices result) 300 (Ret result)
    end).

Definition getDeviceStatus (deviceId : string) : Prog (AqaraResponse Any) :=
  let cacheKey := deviceStatusKey deviceId in
  cacheGetAs KAny cacheKey (fun cached =>
    match cached with
    | Some hit => Ret hit
    | None =>
        await result <- makeRequest KAny "query.device.info" (DeviceInfoQuery [deviceId]);
        CacheSet cacheKey (RAny result) 30 (Ret result)
    end).

Definition controlDevice (deviceId resourceId : string) (value : ResourceValue)
    : Prog (AqaraResponse Any) :=
  let cachePattern := deviceStatusKey deviceId in
  CacheDel cachePattern
    (makeRequest KAny "write.device.resource"
       (ResourceWrite deviceId [(deviceId, resourceId, value)])).

Definition getSceneList (pageNum pageSize : Z) : Prog (AqaraResponse (list Scene)) :=
  let cacheKey := sceneListKey pageNum pageSize in
  cacheGetAs KScenes cacheKey (fun cached =>
    match cached with
    | Some hit => Ret hit
    | None =>
        await result <- makeRequest KScenes "query.scene.list" (PageQuery pageNum pageSize);
        CacheSet cacheKey (RScenes result) 600 (Ret result)
    end).

Definition executeScene (sceneId : string) : Prog (AqaraResponse Any) :=
  makeRequest KAny "config.scene.run" (SceneRun sceneId).

Definition getDeviceHistory (deviceId resourceId startTime endTime : string)
    (pageNum pageSize : Z) : Prog (AqaraResponse Any) :=
  makeRequest KAny "fetch.device.history"
    (HistoryFetch deviceId [resourceId] startTime endTime pageNum pageSize).

(** [response.data || response.result || []]: an array is truthy, also
    when it is empty. *)
Definition extractList {T} (response : AqaraResponse (list T)) : list T :=
  match data response with
  | Some d => d
  | None => default [] (result response)
  end.

Definition getDevicesByType (modelType' : option Z) : Prog (list Device) :=
  await response <- getDeviceList 1 100;
  let devices := extractList response in
  match modelType' with
  | Some m => Ret (List.filter (fun device => modelType device =? m) devices)
  | None => Ret devices
  end.

Definition getOnlineDevices : Prog (list Device) :=
  await devices <- getDevicesByType None;
  Ret (List.filter (fun device => online device) devices).

Definition clearCache : Prog unit := CacheFlushAll (Ret tt).

(** ** node-cache, as the client uses it

    The store of [new NodeCache({stdTTL: 600, checkperiod: 120, useClones:
    false})]: every key holds the value and [t], the time (ms) after which
    it has expired; [t = 0] never expires. *)

Record Entry : Type := {
  t : Z;
  v : Response
}.

Definition expired (now : Z) (e : Entry) : bool :=
  negb (t e =? 0) && (t e <? now).

(** [cache.get(key)]: a miss for an absent key and for an expired one,
    which is deleted on the way. *)
Definition nc_get (now : Z) (store : gmap string Entry) (key : string)
    : option Response * gmap string Entry :=
  match store !! key with
  | Some e => if expired now e then (None, delete key store) else (Some (v e), store)
  | None => (None, store)
  end.

(** [cache.set(key, val, ttl)] with [ttl] in seconds. *)
Definition nc_set (now : Z) (store : gmap string Entry) (key : string)
    (val : Response) (ttl : Z) : gmap string Entry :=
  <[key := {| t := if ttl =? 0 then 0 else now + ttl * 1000; v := val |}]> store.

(** [cache.del(key)]. *)
Definition nc_del (store : gmap string Entry) (key : string) : gmap string Entry :=
  delete key store.

(** [cache.flushAll()]. *)
Definition nc_flushAll (store : gmap string Entry) : gmap string Entry := ∅.

(** The periodic check ([checkperiod]): expired entries are deleted. *)
Definition nc_checkData (now : Z) (store : gmap string Entry) : gmap string Entry :=
  filter (fun kv => expired now kv.2 = false) store.

(** ** Running one method to completion

    [run p replies now store] executes [p] from the clock [now] and the cache
    [store].  Each [Schedule] takes the next reply: the POST settles
    [delay] ms later with [settle], read at the payload type the caller
    declared.  The result holds the requests handed to the limiter, in
    order. *)

Inductive Outcome (A : Type) : Type :=
| Returned (a : A)
| Failed (e : JSError)
| TypeConfusion
| Pending.
Arguments Returned {A} _.
Arguments Failed {A} _.
Arguments TypeConfusion {A}.
Arguments Pending {A}.

Record Reply : Type := {
  delay : Z;
  settle : forall kind, HttpOutcome (payload kind)
}.

Record Run (A : Type) : Type := {
  outcome : Outcome A;
  store_after : gmap string Entry;
  clock_after : Z;
  sent : list Request
}.
Arguments outcome {A} _.
Arguments store_after {A} _.
Arguments clock_after {A} _.
Arguments sent {A} _.

Definition finish {A} (o : Outcome A) (store : gmap string Entry) (now : Z) : Run A :=
  {| outcome := o; store_after := store; clock_after := now; sent := [] |}.

Definition sending {A} (req : Request) (r : Run A) : Run A :=
  {| outcome := outcome r; store_after := store_after r;
     clock_after := clock_after r; sent := req :: sent r |}.

Fixpoint run {A} (p : Prog A) (replies : list Reply) (now : Z)
    (store : gmap string Entry) : Run A :=
  match p with
  | Ret a => finish (Returned a) store now
  | Raise e => finish (Failed e) store now
  | Confused => finish TypeConfusion store now
  | CacheGet key k =>
      let '(cached, store') := nc_get now store key in
      run (k cached) replies now store'
  | CacheSet key val ttl k => run k replies now (nc_set now store key val ttl)
  | CacheDel key k => run k replies now (nc_del store key)
  | CacheFlushAll k => run k replies now (nc_flushAll store)
  | Schedule kind req k =>
      match replies with
      | [] => sending req (finish Pending store now)
      | reply :: rest =>
          sending req
            (run (k (settle reply kind)) rest (now + Z.max 0 (delay reply)) store)
      end
  end.

(** ** Interleaved calls

    Several calls can be in flight at once: a method runs until it suspends
    at its POST, and resumes when that POST settles, while other calls and
    the cache's periodic check run in between. *)

Inductive Operation : Type :=
| OpGetDeviceList (pageNum pageSize : Z)
| OpGetDeviceStatus (deviceId : string)
| OpControlDevice (deviceId resourceId : string) (value : ResourceValue)
| OpGetSceneList (pageNum pageSize : Z)
| OpExecuteScene (sceneId : string)
| OpGetDeviceHistory (deviceId resourceId startTime endTime : string)
                     (pageNum pageSize : Z)
| OpGetDevicesByType (modelType' : option Z)
| OpGetOnlineDevices
| OpClearCache.

Inductive OpResult : Type :=
| ResResponse (r : Response)
| ResDevices (devices : list Device)
| ResVoid.

Definition fmap_prog {A B} (f : A -> B) (p : Prog A) : Prog B :=
  await a <- p; Ret (f a).

Definition perform (op : Operation) : Prog OpResult :=
  match op with
  | OpGetDeviceList pageNum pageSize =>
      fmap_prog (fun r => ResResponse (RDevices r)) (getDeviceList pageNum pageSize)
  | OpGetDeviceStatus deviceId =>
      fmap_prog (fun r => ResResponse (RAny r)) (getDeviceStatus deviceId)
  | OpControlDevice deviceId resourceId value =>
      fmap_prog (fun r => ResResponse (RAny r)) (controlDevice deviceId resourceId value)
  | OpGetSceneList pageNum pageSize =>
      fmap_prog (fun r => ResResponse (RScenes r)) (getSceneList pageNum pageSize)
  | OpExecuteScene sceneId =>
      fmap_prog (fun r => ResResponse (RAny r)) (executeScene sceneId)
  | OpGetDeviceHistory deviceId resourceId startTime endTime pageNum pageSize =>
      fmap_prog (fun r => ResResponse (RAny r))
        (getDeviceHistory deviceId resourceId startTime endTime pageNum pageSize)
  | OpGetDevicesByType modelType' => fmap_prog ResDevices (getDevicesByType modelType')
  | OpGetOnlineDevices => fmap_prog ResDevices getOnlineDevices
  | OpClearCache => fmap_prog (fun _ => ResVoid) clearCache
  end.

(** A call suspended at its POST. *)
Record Task : Type := {
  task_op : Operation;
  task_kind : Kind;
  task_request : Request;
  task_resume : HttpOutcome (payload task_kind) -> Prog OpResult
}.

Record World : Type := {
  store : gmap string Entry;
  clock : Z;
  inflight : list Task
}.

Inductive Event : Type :=
| Call (op : Operation)
| Settle (i : nat) (reply : forall kind, HttpOutcome (payload kind))
| Elapse (ms : Z)
| CheckData.

Inductive Obs : Type :=
| Sent (op : Operation) (req : Request)
| Done (op : Operation) (out : Outcome OpResult).

(** Run a method until it finishes or suspends. *)
Fixpoint advance (op : Operation) (p : Prog OpResult) (now : Z)
    (store : gmap string Entry) : gmap string Entry * (Task + Outcome OpResult) :=
  match p with
  | Ret a => (store, inr (Returned a))
  | Raise e => (store, inr (Failed e))
  | Confused => (store, inr TypeConfusion)
  | CacheGet key k =>
      let '(cached, store') := nc_get now store key in
      advance op (k cached) now store'
  | CacheSet key val ttl k => advance op k now (nc_set now store key val ttl)
  | CacheDel key k => advance op k now (nc_del store key)
  | CacheFlushAll k => advance op k now (nc_flushAll store)
  | Schedule kind req k =>
      (store, inl {| task_op := op; task_kind := kind;
                     task_request := req; task_resume := k |})
  end.

Definition settled (w : World) (op : Operation) (inflight' : list Task)
    (r : gmap string Entry * (Task + Outcome OpResult)) : World * list Obs :=
  match r with
  | (store', inl task) =>
      ({| store := store'; clock := clock w; inflight := inflight' ++ [task] |},
       [Sent op (task_request task)])
  | (store', inr out) =>
      ({| store := store'; clock := clock w; inflight := inflight' |},
       [Done op out])
  end.

Definition step (w : World) (ev : Event) : World * list Obs :=
  match ev with
  | Call op =>
      settled w op (inflight w) (advance op (perform op) (clock w) (store w))
  | Settle i reply =>
      match inflight w !! i with
      | Some task =>
          settled w (task_op task) (delete i (inflight w))
            (advance (task_op task) (task_resume task (reply (task_kind task)))
               (clock w) (store w))
      | None => (w, [])
      end
  | Elapse ms =>
      ({| store := store w; clock := clock w + Z.max 0 ms; inflight := inflight w |}, [])
  | CheckData =>
      ({| store := nc_checkData (clock w) (store w); clock := clock w;
          inflight := inflight w |}, [])
  end.

Fixpoint steps (w : World) (evs : list Event) : World * list Obs :=
  match evs with
  | [] => (w, [])
  | ev :: rest =>
      let '(w', obs) := step w ev in
      let '(w'', obs') := steps w' rest in
      (w'', obs ++ obs')
  end.

(** ** The rate limiter *)

(** Modelled from the spec: the rate limiter.  The source takes it from the
    Bottleneck library, which is not under src/, and only configures it in
    the constructor ([minTime: 200], [maxConcurrent: 3]).  Calls handed to
    [limiter.schedule] wait in a queue and are released in submission
    order; the head of the queue may start when fewer than [maxConcurrent]
    calls are executing and at least [minTime] ms have passed since the
    latest start; a call that cannot start yet waits, it does not fail. *)
Record Limited : Type := {
  l_store : gmap string Entry;
  l_clock : Z;
  l_queued : list Task;
  l_executing : list Task;
  l_lastStart : option Z
}.

(** A caller invokes a method; the limiter starts the head of its queue
    (the POST goes out); the POST of the [i]-th executing call settles;
    time passes. *)
Inductive LimiterEvent : Type :=
| LCall (op : Operation)
| LStart
| LSettle (i : nat) (reply : forall kind, HttpOutcome (payload kind))
| LElapse (ms : Z).

Inductive LimiterObs : Type :=
| Submitted (op : Operation) (req : Request)
| Started (op : Operation) (req : Request) (time : Z)
| Finished (op : Operation) (out : Outcome OpResult).

(** Modelled from the spec: the head of the queue may start now. *)
Definition mayStart (w : Limited) : bool :=
  (Z.of_nat (length (l_executing w)) <? limiter_maxConcurrent)
  && match l_lastStart w with
     | Some last => last + limiter_minTime <=? l_clock w
     | None => true
     end.

(** A method ran until it finished or reached [limiter.schedule], where
    its call joins the queue. *)
Definition submitted (w : Limited) (op : Operation) (executing' : list Task)
    (r : gmap string Entry * (Task + Outcome OpResult)) : Limited * list LimiterObs :=
  match r with
  | (store', inl task) =>
      ({| l_store := store'; l_clock := l_clock w;
          l_queued := l_queued w ++ [task]; l_executing := executing';
          l_lastStart := l_lastStart w |},
       [Submitted op (task_request task)])
  | (store', inr out) =>
      ({| l_store := store'; l_clock := l_clock w;
          l_queued := l_queued w; l_executing := executing';
          l_lastStart := l_lastStart w |},
       [Finished op out])
  end.

Definition lstep (w : Limited) (ev : LimiterEvent) : Limited * list LimiterObs :=
  match ev with
  | LCall op =>
      submitted w op (l_executing w)
        (advance op (perform op) (l_clock w) (l_store w))
  | LStart =>
      match l_queued w with
      | task :: rest =>
          if mayStart w then
            ({| l_store := l_store w; l_clock := l_clock w;
                l_queued := rest; l_executing := l_executing w ++ [task];
                l_lastStart := Some (l_clock w) |},
             [Started (task_op task) (task_request task) (l_clock w)])
          else (w, [])
      | [] => (w, [])
      end
  | LSettle i reply =>
      match l_executing w !! i with
      | Some task =>
          submitted w (task_op task) (delete i (l_executing w))
            (advance (task_op task) (task_resume task (reply (task_kind task)))
               (l_clock w) (l_store w))
      | None => (w, [])
      end
  | LElapse ms =>
      ({| l_store := l_store w; l_clock := l_clock w + Z.max 0 ms;
          l_queued := l_queued w; l_executing := l_executing w;
          l_lastStart := l_lastStart w |}, [])
  end.

Fixpoint lsteps (w : Limited) (evs : list LimiterEvent) : Limited * list LimiterObs :=
  match evs with
  | [] => (w, [])
  | ev :: rest =>
      let '(w', obs) := lstep w ev in
      let '(w'', obs') := lsteps w' rest in
      (w'', obs ++ obs')
  end.

(** ** index.ts: start-up and the history tool *)

Inductive Startup : Type :=
| Exit (code : Z) (stderr : list string)
| Running (config : AqaraConfig).

Definition startup (env : gmap string string) : Startup :=
  match validateEnvironment env with
  | Throw error =>
      Exit 1 ["❌ Environment validation failed:"; errorMessage error]
  | Normal _ =>
      Running {| appId := default "" (env !! "AQARA_APP_ID");
                 appKey := default "" (env !! "AQARA_APP_KEY");
                 keyId := default "" (env !! "AQARA_KEY_ID");
                 appSecret := default "" (env !! "AQARA_APP_SECRET");
                 region := if JS.truthy (env !! "AQARA_REGION")
                           then default "" (env !! "AQARA_REGION") else "usa";
                 accessToken := env !! "AQARA_ACCESS_TOKEN" |}
  end.

Record HistoryArgs : Type := {
  h_deviceId : string;
  h_resourceId : string;
  h_startTime : string;
  h_endTime : string;
  h_pageNum : Z;
  h_pageSize : Z
}.

(** What the tool returns: the object it serialises, or the error text. *)
Inductive ToolResult : Type :=
| HistoryRetrieved (deviceId resourceId startTime endTime : string)
                   (result : AqaraResponse Any)
| ErrorText (text : string).

Definition get_device_history (pf : JSDate.Platform) (args : HistoryArgs)
    : Prog ToolResult :=
  catch
    (await startTime <- lift (parseTimeString pf (h_startTime args));
     await endTime <- lift (parseTimeString pf (h_endTime args));
     await result <- getDeviceHistory (h_deviceId args) (h_resourceId args)
                       startTime endTime (h_pageNum args) (h_pageSize args);
     Ret (HistoryRetrieved (h_deviceId args) (h_resourceId args)
            startTime endTime result))
    (fun error => Ret (ErrorText (formatError error))).

(** ** index.ts: the other tools, the resources and the status prompt *)

Record ListDevicesArgs : Type := {
  ld_pageNum : Z;
  ld_pageSize : Z;
  ld_onlineOnly : bool
}.

Record ListScenesArgs : Type := {
  ls_pageNum : Z;
  ls_pageSize : Z;
  ls_enabledOnly : bool
}.

(** The object a tool hands to [JSON.stringify], or the text of
    [formatError]. *)
Inductive ToolOutput : Type :=
| OnlineDevicesRetrieved (count : nat) (devices : list Device)
| DevicesRetrieved (response : AqaraResponse (list Device))
| DeviceStatusRetrieved (response : AqaraResponse Any)
| DeviceControlled (deviceId resourceId : string) (setValue : ResourceValue)
                   (result : AqaraResponse Any)
| ScenesRetrieved (count : nat) (scenes : list Scene)
| SceneExecuted (sceneId : string) (result : AqaraResponse Any)
| CacheCleared
| ToolFailed (text : string).

Definition list_devices (args : ListDevicesArgs) : Prog ToolOutput :=
  catch
    (if ld_onlineOnly args then
       await devices <- getOnlineDevices;
       Ret (OnlineDevicesRetrieved (length devices) devices)
     else
       await response <- getDeviceList (ld_pageNum args) (ld_pageSize args);
       Ret (DevicesRetrieved response))
    (fun error => Ret (ToolFailed (formatError error))).

Definition get_device_status (deviceId : string) : Prog ToolOutput :=
  catch
    (await response <- getDeviceStatus deviceId;
     Ret (DeviceStatusRetrieved response))
    (fun error => Ret (ToolFailed (formatError error))).

Definition control_device (deviceId resourceId : string) (value : ResourceValue)
    : Prog ToolOutput :=
  catch
    (await result <- controlDevice deviceId resourceId value;
     Ret (DeviceControlled deviceId resourceId value result))
    (fun error => Ret (ToolFailed (formatError error))).

Definition list_scenes (args : ListScenesArgs) : Prog ToolOutput :=
  catch
    (await response <- getSceneList (ls_pageNum args) (ls_pageSize args);
     let scenes := extractList response in
     let scenes :=
       if ls_enabledOnly args
       then List.filter (fun scene => Bool.eqb (enable scene) true) scenes
       else scenes in
     Ret (ScenesRetrieved (length scenes) scenes))
    (fun error => Ret (ToolFailed (formatError error))).

Definition execute_scene (sceneId : string) : Prog ToolOutput :=
  catch
    (await result <- executeScene sceneId;
     Ret (SceneExecuted sceneId result))
    (fun error => Ret (ToolFailed (formatError error))).

Definition clear_cache : Prog ToolOutput :=
  catch
    (await done <- clearCache; Ret CacheCleared)
    (fun error => Ret (ToolFailed (formatError error))).

(** The tools registered with [server.addTool] whose result is a
    [ToolOutput], by name and arguments. *)
Inductive ToolCall : Type :=
| CallListDevices (args : ListDevicesArgs)
| CallGetDeviceStatus (deviceId : string)
| CallControlDevice (deviceId resourceId : string) (value : ResourceValue)
| CallListScenes (args : ListScenesArgs)
| CallExecuteScene (sceneId : string)
| CallClearCache.

Definition execute (call : ToolCall) : Prog ToolOutput :=
  match call with
  | CallListDevices args => list_devices args
  | CallGetDeviceStatus deviceId => get_device_status deviceId
  | CallControlDevice deviceId resourceId value =>
      control_device deviceId resourceId value
  | CallListScenes args => list_scenes args
  | CallExecuteScene sceneId => execute_scene sceneId
  | CallClearCache => clear_cache
  end.

(** What a resource's [load] serialises. *)
Inductive ResourceOutput : Type :=
| DeviceListResource (response : AqaraResponse (list Device))
| SceneListResource (response : AqaraResponse (list Scene))
| OnlineDevicesResource (count : nat) (devices : list Device)
| ResourceFailed (error : string).

(** aqara://devices *)
Definition devices_resource : Prog ResourceOutput :=
  catch
    (await response <- getDeviceList 1 100; Ret (DeviceListResource response))
    (fun error => Ret (ResourceFailed (formatError error))).

(** aqara://scenes *)
Definition scenes_resource : Prog ResourceOutput :=
  catch
    (await response <- getSceneList 1 100; Ret (SceneListResource response))
    (fun error => Ret (ResourceFailed (formatError error))).

(** aqara://devices/online *)
Definition online_devices_resource : Prog ResourceOutput :=
  catch
    (await devices <- getOnlineDevices;
     Ret (OnlineDevicesResource (length devices) devices))
    (fun error => Ret (ResourceFailed (formatError error))).

(** [a?.length || b?.length || 0]: a length counts when it is not 0. *)
Definition lengthOr {T} (a b : option (list T)) : nat :=
  match a with
  | Some ((_ :: _) as l) => length l
  | _ => match b with Some l => length l | None => O end
  end.

(** The [home_status] prompt: the text with the device count in it, or the
    text without a count when the fetch throws. *)
Inductive HomeStatusText : Type :=
| HomeStatusWithCount (deviceCount : nat)
| HomeStatusGeneric.

Definition home_status : Prog HomeStatusText :=
  catch
    (await response <- getDeviceList 1 100;
     let deviceCount := lengthOr (data response) (result response) in
     Ret (HomeStatusWithCount deviceCount))
    (fun error => Ret HomeStatusGeneric).

(** ** Notions the properties are stated with *)

Definition usaURL : string := "https://open-usa.aqara.com".

(** [error instanceof AqaraError]. *)
Definition isAqaraError (e : JSError) : bool :=
  match e with
  | AqaraError _ _ _ _ => true
  | _ => false
  end.

(** An access token is configured when [config.accessToken] is truthy: set,
    and not the empty string. *)
Definition tokenConfigured (config : AqaraConfig) : bool :=
  JS.truthy (accessToken config).

(** The four fields every sign-string ends with, and the field of the
    access token, for a lower-casing function. *)
Definition fixedFields (toLowerCase : string -> string) (config : AqaraConfig)
    (nonce : string) (timestamp : Z) : list string :=
  [ "appid=" +:+ toLowerCase (appId config);
    "keyid=" +:+ toLowerCase (keyId config);
    "nonce=" +:+ toLowerCase nonce;
    "time=" +:+ JS.numberToString timestamp ].

Definition tokenField (toLowerCase : string -> string) (config : AqaraConfig)
    : string :=
  "accesstoken=" +:+ toLowerCase (default "" (accessToken config)).

(** The shape the three cached reads have in common: look the key up,
    return a hit, otherwise fetch, store with [ttl] seconds and return. *)
Definition cachedFetch (kind : Kind) (key intent' : string) (data' : RequestData)
    (ttl : Z) : Prog (AqaraResponse (payload kind)) :=
  cacheGetAs kind key (fun cached =>
    match cached with
    | Some hit => Ret hit
    | None =>
        await result <- makeRequest kind intent' data';
        CacheSet key (inject kind result) ttl (Ret result)
    end).

Definition mapOutcome {A B} (f : A -> B) (o : Outcome A) : Outcome B :=
  match o with
  | Returned a => Returned (f a)
  | Failed e => Failed e
  | TypeConfusion => TypeConfusion
  | Pending => Pending
  end.

Definition mapRun {A B} (f : A -> B) (r : Run A) : Run B :=
  {| outcome := mapOutcome f (outcome r); store_after := store_after r;
     clock_after := clock_after r; sent := sent r |}.

(** The character occurs in the string. *)
Fixpoint hasChar (c : ascii) (s : string) : bool :=
  match s with
  | EmptyString => false
  | String c' rest => Ascii.eqb c c' || hasChar c rest
  end.

(** A history query with both times in ISO 8601 form, without milliseconds. *)
Definition historyExample : HistoryArgs :=
  {| h_deviceId := "lumi.158d0001"; h_resourceId := "0.1.85";
     h_startTime := "2024-01-01T00:00:00Z"; h_endTime := "2024-01-02T00:00:00Z";
     h_pageNum := 1; h_pageSize := 100 |}.

(** Every entry sits under a key of the type its reader asserts. *)
Definition wellTyped (store : gmap string Entry) : Prop :=
  forall key e, store !! key = Some e ->
    (forall p s, key = deviceListKey p s -> exists r, v e = RDevices r)
    /\ (forall d, key = deviceStatusKey d -> exists r, v e = RAny r)
    /\ (forall p s, key = sceneListKey p s -> exists r, v e = RScenes r).

(** A suspended call that, however its POST settles, finishes without a
    type confusion and keeps the cache well typed. *)
Definition completes (task : Task) : Prop :=
  forall settled' now store, wellTyped store ->
    exists store' out,
      advance (task_op task) (task_resume task settled') now store = (store', inr out)
      /\ out <> TypeConfusion /\ wellTyped store'.

Definition consistent (w : World) : Prop :=
  wellTyped (store w) /\ Forall completes (inflight w).

(** What [advance] may answer for a call on a well-typed cache. *)
Definition advancesWell (r : gmap string Entry * (Task + Outcome OpResult)) : Prop :=
  wellTyped (fst r)
  /\ match snd r with
     | inl task => completes task
     | inr out => out <> TypeConfusion
     end.

(** The client right after its constructor. *)
Definition initialWorld (now : Z) : World :=
  {| store := ∅; clock := now; inflight := [] |}.

(** Sample data for running the model. *)
Definition lamp : Device :=
  {| did := "lumi.158d0001"; uid := "u1"; name := "Desk lamp"; model := "lumi.light";
     modelType := 2; online := true; firmwareVersion := "1.0.3";
     createTime := 1700000000000; updateTime := 1700000100000; resourceInfo := None |}.

Definition sensor : Device :=
  {| did := "lumi.158d0002"; uid := "u1"; name := "Door sensor"; model := "lumi.magnet";
     modelType := 3; online := false; firmwareVersion := "2.1.0";
     createTime := 1700000000000; updateTime := 1700000200000; resourceInfo := None |}.

Definition success {T} (rid : string) (payload' : T) : AqaraResponse T :=
  {| code := 0; requestId := rid; message := "Success"; msgDetails := None;
     result := Some payload'; data := None |}.

(** A reply that arrives after [ms] and carries a success envelope whatever
    the caller asked for. *)
Definition successAfter (ms : Z) (rid : string) (status : Any) : Reply :=
  {| delay := ms;
     settle := fun kind =>
       match kind with
       | KDevices => Responded (BodyEnvelope (success rid [lamp; sensor]))
       | KScenes => Responded (BodyEnvelope (success rid []))
       | KAny => Responded (BodyEnvelope (success rid status))
       end |}.

(** A reply with the vendor's error code 108 (invalid access token). *)
Definition failureAfter (ms : Z) : Reply :=
  {| delay := ms;
     settle := fun kind =>
       Responded (BodyEnvelope
         {| code := 108; requestId := "r9"; message := "Token is invalid";
            msgDetails := Some "accessToken"; result := None; data := None |}) |}.

(** An environment with the four credentials and the given region. *)
Definition envWithRegion (region' : string) : gmap string string :=
  <["AQARA_APP_ID" := "app"]> (<["AQARA_APP_KEY" := "key"]>
  (<["AQARA_KEY_ID" := "K.1"]> (<["AQARA_APP_SECRET" := "secret"]>
  (<["AQARA_REGION" := region']> ∅)))).

(** The run of a method wrapped in [try { } catch (error) { return h(error) }]. *)
Definition recoverOutcome {A} (h : JSError -> A) (o : Outcome A) : Outcome A :=
  match o with
  | Failed e => Returned (h e)
  | other => other
  end.

Definition recoverRun {A} (h : JSError -> A) (r : Run A) : Run A :=
  {| outcome := recoverOutcome h (outcome r); store_after := store_after r;
     clock_after := clock_after r; sent := sent r |}.

(** The three reads that go through the cache, with the key, the request
    and the lifetime (seconds) each uses. *)
Inductive CachedRead : Type :=
| ReadDeviceList (pageNum pageSize : Z)
| ReadDeviceStatus (deviceId : string)
| ReadSceneList (pageNum pageSize : Z).

Definition readOperation (c : CachedRead) : Operation :=
  match c with
  | ReadDeviceList p s => OpGetDeviceList p s
  | ReadDeviceStatus d => OpGetDeviceStatus d
  | ReadSceneList p s => OpGetSceneList p s
  end.

Definition readKind (c : CachedRead) : Kind :=
  match c with
  | ReadDeviceList _ _ => KDevices
  | ReadDeviceStatus _ => KAny
  | ReadSceneList _ _ => KScenes
  end.

Definition readKey (c : CachedRead) : string :=
  match c with
  | ReadDeviceList p s => deviceListKey p s
  | ReadDeviceStatus d => deviceStatusKey d
  | ReadSceneList p s => sceneListKey p s
  end.

Definition readRequest (c : CachedRead) : Request :=
  match c with
  | ReadDeviceList p s => {| intent := "query.device.list"; reqData := PageQuery p s |}
  | ReadDeviceStatus d => {| intent := "query.device.info"; reqData := DeviceInfoQuery [d] |}
  | ReadSceneList p s => {| intent := "query.scene.list"; reqData := PageQuery p s |}
  end.

Definition readTtl (c : CachedRead) : Z :=
  match c with
  | ReadDeviceList _ _ => 300
  | ReadDeviceStatus _ => 30
  | ReadSceneList _ _ => 600
  end.

(** A reply carrying an envelope with the given fields and no payload,
    whatever payload type the caller declared. *)
Definition vendorReply (ms code' : Z) (message' : string)
    (details : option string) (requestId' : string) : Reply :=
  {| delay := ms;
     settle := fun kind =>
       Responded (BodyEnvelope
         {| code := code'; requestId := requestId'; message := message';
            msgDetails := details; result := None; data := None |}) |}.

(** A POST that axios rejects with [error]. *)
Definition rejectedReply (ms : Z) (error : AxiosError) : Reply :=
  {| delay := ms; settle := fun kind => Rejected error |}.

(** A method that sends at most one request, and is left waiting exactly
    when it sent one and no reply came. *)
Definition oneShot {A} (replies : list Reply) (r : Run A) : Prop :=
  (length (sent r) <= 1)%nat
  /\ (outcome r = Pending <-> replies = [] /\ sent r <> []).

(** The header names [signRequest] writes. *)
Definition signedHeaderNames : list string :=
  ["Appid"; "Keyid"; "Nonce"; "Time"; "Sign"; "Lang"; "Accesstoken"].

(** The engine's fallback parser returns time values: finite and in the
    range of [Date]. *)
Definition legacyInRange (pf : JSDate.Platform) : Prop :=
  forall s tv, JSDate.legacyParse pf s = Some tv -> Z.abs tv <= 8640000000000000.

(** The client after its constructor, at time [now]: nothing cached,
    nothing queued, nothing executing. *)
Definition initialLimited (now : Z) : Limited :=
  {| l_store := ∅; l_clock := now; l_queued := []; l_executing := [];
     l_lastStart := None |}.



Fixpoint startTimes (obs : list LimiterObs) : list Z :=
  match obs with
  | [] => []
  | Started _ _ time :: rest => time :: startTimes rest
  | _ :: rest => startTimes rest
  end.




(** An engine whose fallback parser reads the one string
    "Mon, 01 Jan 2024 00:00:00 GMT", the form [toUTCString] prints and
    ECMA-262 requires [Date.parse] to accept, and nothing else. *)
Definition utcStringEngine : JSDate.Platform :=
  {| JSDate.legacyParse := fun s =>
       if String.eqb s "Mon, 01 Jan 2024 00:00:00 GMT"
       then Some 1704067200000 else None;
     JSDate.utcOfLocal := fun t => t |}.

(** A history query whose start time is in the [toUTCString] form. *)
Definition historyUtcString : HistoryArgs :=
  {| h_deviceId := "lumi.158d0001"; h_resourceId := "0.1.85";
     h_startTime := "Mon, 01 Jan 2024 00:00:00 GMT";
     h_endTime := "2024-01-02T00:00:00Z";
     h_pageNum := 1; h_pageSize := 100 |}.

(** * Properties *)

(** Closes [x ∉ [a; b; ...]] for closed, distinct constructors. *)
Ltac not_in_list :=
  let H := fresh "H" in
  intros H;
  repeat (apply elem_of_cons in H as [H | H]; [ discriminate H | ]);
  by apply elem_of_nil in H.

(** ** Region table *)

Lemma getBaseURL_regions :
  List.map getBaseURL regions =
    [ JS.VString "https://open-cn.aqara.com";
      JS.VString "https://open-usa.aqara.com";
      JS.VString "https://open-ger.aqara.com";
      JS.VString "https://open-kr.aqara.com";
      JS.VString "https://open-ru.aqara.com";
      JS.VString "https://open-sg.aqara.com" ].
Proof. reflexivity. Qed.

Lemma getBaseURL_regions_distinct : NoDup (List.map getBaseURL regions).
Proof.
  rewrite getBaseURL_regions.
  repeat (apply NoDup_cons_2; [ not_in_list | ]).
  apply NoDup_nil_2.
Qed.

Lemma domains_lookup_other (region : string) :
  region ∉ regions -> domains !! region = None.
Proof.
  intros Hout. unfold domains.
  apply not_elem_of_list_to_map_1. exact Hout.
Qed.

(** A region that is neither in the table nor the name of an inherited
    property selects the [usa] URL. *)
Lemma getBaseURL_fallback (region : string) :
  region ∉ regions ->
  JS.objectPrototype !! region = None ->
  getBaseURL region = JS.VString usaURL.
Proof.
  intros Hout Hproto. unfold getBaseURL, JS.getProperty.
  rewrite (domains_lookup_other region Hout), Hproto. reflexivity.
Qed.

Lemma getBaseURL_fallback_witness :
  getBaseURL "mars" = JS.VString usaURL.
Proof.
  apply getBaseURL_fallback.
  - unfold regions. not_in_list.
  - reflexivity.
Defined.

(** C8 (the code departs from the claim): for the region ["constructor"],
    which is outside the table, [domains[region]] finds the property every
    object inherits from [Object.prototype]; it is truthy, so [getBaseURL]
    returns that function and not the [usa] URL.  Start-up passes
    AQARA_REGION to the client as it is, so the client can be given this
    region. *)
Theorem getBaseURL_inherited_property :
  ("constructor" ∉ regions)
  /\ getBaseURL "constructor" = JS.VFunction "Object"
  /\ getBaseURL "constructor" <> getBaseURL "usa"
  /\ (exists config,
        startup (envWithRegion "constructor") = Running config
        /\ getBaseURL (region config) = JS.VFunction "Object").
Proof.
  split; [ unfold regions; not_in_list | ].
  split; [ reflexivity | ].
  split; [ vm_compute; discriminate | ].
  eexists. split; [ vm_compute; reflexivity | reflexivity ].
Qed.

(** ** Start-up validation *)

Lemma validateEnvironment_unfold (env : gmap string string) :
  validateEnvironment env =
    match List.filter (envMissing env) requiredEnvVars with
    | [] => Normal tt
    | missing => Throw (Error (missingMessage missing))
    end.
Proof.
  unfold validateEnvironment.
  destruct (List.filter (envMissing env) requiredEnvVars); reflexivity.
Qed.

Lemma absent_envMissing (env : gmap string string) (field : string) :
  bool_decide (env !! field = None \/ env !! field = Some "") = envMissing env field.
Proof.
  unfold envMissing. destruct (env !! field) as [ [ | c s ] | ]; cbn.
  - first [ reflexivity | apply bool_decide_eq_true_2; right; reflexivity ].
  - first [ reflexivity
          | apply bool_decide_eq_false_2; intros [ H | H ]; discriminate H ].
  - first [ reflexivity | apply bool_decide_eq_true_2; left; reflexivity ].
Qed.

(** C7: the four mandatory variables are AQARA_APP_ID, AQARA_APP_KEY,
    AQARA_KEY_ID and AQARA_APP_SECRET, and one is missing when it is unset
    or empty.  If one is missing, validation throws the error whose message
    lists the missing ones; the message contains the name of a mandatory
    variable exactly when that variable is missing, and start-up exits with
    status 1.  If none is missing, nothing is thrown and the client is
    constructed. *)
Theorem validateEnvironment_names_missing (env : gmap string string) :
  let mandatory :=
    ["AQARA_APP_ID"; "AQARA_APP_KEY"; "AQARA_KEY_ID"; "AQARA_APP_SECRET"] in
  let absent := fun field =>
    bool_decide (env !! field = None \/ env !! field = Some "") in
  let message :=
    "Missing required environment variables: "
    +:+ JS.join ", " (List.filter absent mandatory) +:+ ". "
    +:+ "Please check your .env file and ensure all Aqara API credentials are provided." in
  ((exists field, field ∈ mandatory /\ absent field = true) ->
     validateEnvironment env = Throw (Error message)
     /\ (forall field, field ∈ mandatory -> JS.includes message field = absent field)
     /\ startup env = Exit 1 ["❌ Environment validation failed:"; message])
  /\ ((forall field, field ∈ mandatory -> absent field = false) ->
     validateEnvironment env = Normal tt
     /\ exists config, startup env = Running config).
Proof.
  cbv zeta. unfold startup. rewrite validateEnvironment_unfold.
  unfold requiredEnvVars. cbn [List.filter].
  rewrite !absent_envMissing. repeat setoid_rewrite absent_envMissing.
  destruct (envMissing env "AQARA_APP_ID") eqn:Hid,
           (envMissing env "AQARA_APP_KEY") eqn:Hkey,
           (envMissing env "AQARA_KEY_ID") eqn:Hkid,
           (envMissing env "AQARA_APP_SECRET") eqn:Hsec;
    (split; [ intros (field & Hin & Hmiss) | intros Hall ]);
    try (split; [ reflexivity | split; [ | reflexivity ] ];
         intros envVar Hvar;
         repeat (apply elem_of_cons in Hvar as [-> | Hvar];
                 [ first [ rewrite Hid | rewrite Hkey | rewrite Hkid | rewrite Hsec ];
                   vm_compute; reflexivity | ]);
         by apply elem_of_nil in Hvar);
    try (split; [ reflexivity | eexists; reflexivity ]);
    exfalso.
  all: try (repeat (apply elem_of_cons in Hin as [-> | Hin]; [ congruence | ]);
            by apply elem_of_nil in Hin).
  all: pose proof (Hall "AQARA_APP_ID" ltac:(apply list_elem_of_In; cbn; auto 10));
       pose proof (Hall "AQARA_APP_KEY" ltac:(apply list_elem_of_In; cbn; auto 10));
       pose proof (Hall "AQARA_KEY_ID" ltac:(apply list_elem_of_In; cbn; auto 10));
       pose proof (Hall "AQARA_APP_SECRET" ltac:(apply list_elem_of_In; cbn; auto 10));
       congruence.
Qed.

Example validateEnvironment_two_missing :
  validateEnvironment
    (<["AQARA_APP_ID" := "id"]> (<["AQARA_KEY_ID" := ""]> (<["AQARA_APP_SECRET" := "s"]> ∅)))
  = Throw (Error ("Missing required environment variables: AQARA_APP_KEY, AQARA_KEY_ID. "
                  +:+ "Please check your .env file and ensure all Aqara API credentials are provided.")).
Proof. vm_compute. reflexivity. Qed.

(** ** Envelope unwrapping *)

(** [makeRequest] returns what [handleAqaraResponse] returns and throws
    what it throws. *)
Lemma run_makeRequest_responded kind intent' data' reply rest now store body :
  settle reply kind = Responded body ->
  run (makeRequest kind intent' data') (reply :: rest) now store =
    {| outcome := match handleAqaraResponse body with
                  | Normal e => Returned e
                  | Throw err => Failed err
                  end;
       store_after := store;
       clock_after := now + Z.max 0 (delay reply);
       sent := [ {| intent := intent'; reqData := data' |} ] |}.
Proof.
  intros Hsettle. cbn [run makeRequest]. rewrite Hsettle.
  destruct (handleAqaraResponse body); reflexivity.
Qed.

(** C2: an envelope with code 0 is returned as it is, so [result] and [data]
    are the ones received; an envelope with another code throws an
    [AqaraError] with its code, message, msgDetails and requestId; a response
    without a body throws a plain [Error], which is not an [AqaraError]. *)
Theorem handleAqaraResponse_unwraps (T : Type) (e : AqaraResponse T) :
  (code e = 0 -> handleAqaraResponse (BodyEnvelope e) = Normal e)
  /\ (code e <> 0 ->
        handleAqaraResponse (BodyEnvelope e) =
          Throw (AqaraError (Some (code e)) (Some (message e))
                            (msgDetails e) (Some (requestId e))))
  /\ (exists err,
        handleAqaraResponse (@BodyUndefined T) = Throw err
        /\ handleAqaraResponse (@BodyNull T) = Throw err
        /\ handleAqaraResponse (@BodyText T "") = Throw err
        /\ err = Error "Invalid response format from Aqara API"
        /\ isAqaraError err = false).
Proof.
  unfold handleAqaraResponse. repeat split.
  - intros ->. reflexivity.
  - intros Hne. destruct (code e =? 0) eqn:Hc; [ | reflexivity ].
    apply Z.eqb_eq in Hc. contradiction.
  - eexists. repeat split; reflexivity.
Qed.

(** ** Request signing *)

Lemma append_assoc (a b c : string) : (a +:+ b) +:+ c = a +:+ (b +:+ c).
Proof.
  induction a as [ | ch a IH ]; [ reflexivity | ].
  change (String ch ((a +:+ b) +:+ c) = String ch (a +:+ (b +:+ c))).
  f_equal. exact IH.
Qed.

Lemma join_cons (sep p q : string) (rest : list string) :
  JS.join sep (p :: q :: rest) = p +:+ sep +:+ JS.join sep (q :: rest).
Proof. reflexivity. Qed.

Section SigningProperties.

Variable toLowerCase : string -> string.
Variable hmacSha256Hex : string -> string -> string.

(** C1: the fields of the sign-string are the access-token field, first
    and only when a token is configured, then appid, keyid, nonce and time
    in this order, all but the time stamp lower-cased; the sign-string is
    these fields joined with "&"; and the [Sign] header is the hex
    HMAC-SHA256 of the sign-string under the app secret. *)
Theorem signRequest_sign_string (config : AqaraConfig) (nonce : string)
    (timestamp : Z) (headers : option (gmap string string)) :
  let fields := signParams toLowerCase config nonce timestamp in
  let str := signString toLowerCase config nonce timestamp in
  fields = (if tokenConfigured config then [tokenField toLowerCase config] else [])
             ++ fixedFields toLowerCase config nonce timestamp
  /\ str = JS.join "&" fields
  /\ str = (if tokenConfigured config
            then "accesstoken=" +:+ toLowerCase (default "" (accessToken config)) +:+ "&"
            else "")
           +:+ "appid=" +:+ toLowerCase (appId config)
           +:+ "&" +:+ "keyid=" +:+ toLowerCase (keyId config)
           +:+ "&" +:+ "nonce=" +:+ toLowerCase nonce
           +:+ "&" +:+ "time=" +:+ JS.numberToString timestamp
  /\ signRequest toLowerCase hmacSha256Hex config nonce timestamp headers !! "Sign"
     = Some (hmacSha256Hex (appSecret config) str).
Proof.
  cbv zeta. unfold signString, signParams, tokenConfigured, tokenField,
    fixedFields, push.
  split; [ | split; [ reflexivity | split ] ].
  - destruct (JS.truthy (accessToken config)); reflexivity.
  - destruct (JS.truthy (accessToken config)); cbn [app].
    + rewrite !join_cons. cbn [JS.join].
      rewrite !append_assoc. reflexivity.
    + rewrite !join_cons. cbn [JS.join].
      rewrite !append_assoc. reflexivity.
  - unfold signRequest, sign, signString, signParams, push.
    destruct (JS.truthy (accessToken config)).
    + rewrite lookup_insert_ne by discriminate.
      rewrite lookup_insert_ne by discriminate.
      apply lookup_insert_eq.
    + rewrite lookup_insert_ne by discriminate.
      apply lookup_insert_eq.
Qed.

End SigningProperties.

Example signString_without_token :
  signString asciiToLowerCase
    {| appId := "AppId1"; appKey := "k"; keyId := "K.2"; appSecret := "s";
       region := "eu"; accessToken := None |}
    "0A1b" 1700000000123
  = "appid=appid1&keyid=k.2&nonce=0a1b&time=1700000000123".
Proof. reflexivity. Qed.

Example signString_with_token :
  signString asciiToLowerCase
    {| appId := "AppId1"; appKey := "k"; keyId := "K.2"; appSecret := "s";
       region := "eu"; accessToken := Some "ToKeN" |}
    "0A1b" 1700000000123
  = "accesstoken=token&appid=appid1&keyid=k.2&nonce=0a1b&time=1700000000123".
Proof. reflexivity. Qed.

(** ** Running the cached reads *)

Lemma getDeviceList_cachedFetch (pageNum pageSize : Z) :
  getDeviceList pageNum pageSize =
    cachedFetch KDevices (deviceListKey pageNum pageSize)
      "query.device.list" (PageQuery pageNum pageSize) 300.
Proof. reflexivity. Qed.

Lemma getDeviceStatus_cachedFetch (deviceId : string) :
  getDeviceStatus deviceId =
    cachedFetch KAny (deviceStatusKey deviceId)
      "query.device.info" (DeviceInfoQuery [deviceId]) 30.
Proof. reflexivity. Qed.

Lemma getSceneList_cachedFetch (pageNum pageSize : Z) :
  getSceneList pageNum pageSize =
    cachedFetch KScenes (sceneListKey pageNum pageSize)
      "query.scene.list" (PageQuery pageNum pageSize) 600.
Proof. reflexivity. Qed.

(** A request followed by the rest of the method. *)
Lemma run_await_makeRequest {A} kind intent' data'
    (f : AqaraResponse (payload kind) -> Prog A) replies now store :
  run (await result <- makeRequest kind intent' data'; f result) replies now store =
    sending {| intent := intent'; reqData := data' |}
      match replies with
      | [] => finish Pending store now
      | reply :: rest =>
          let now' := now + Z.max 0 (delay reply) in
          match settle reply kind with
          | Responded body =>
              match handleAqaraResponse body with
              | Normal e => run (f e) rest now' store
              | Throw err => finish (Failed err) store now'
              end
          | Rejected error => finish (Failed (handleAqaraError error)) store now'
          end
      end.
Proof.
  cbn [makeRequest bind run].
  destruct replies as [ | reply rest ]; [ reflexivity | ].
  cbv zeta. destruct (settle reply kind) as [ body | error ]; [ | reflexivity ].
  destruct (handleAqaraResponse body); reflexivity.
Qed.

Lemma run_makeRequest kind intent' data' replies now store :
  run (makeRequest kind intent' data') replies now store =
    sending {| intent := intent'; reqData := data' |}
      match replies with
      | [] => finish Pending store now
      | reply :: rest =>
          let now' := now + Z.max 0 (delay reply) in
          match settle reply kind with
          | Responded body =>
              match handleAqaraResponse body with
              | Normal e => finish (Returned e) store now'
              | Throw err => finish (Failed err) store now'
              end
          | Rejected error => finish (Failed (handleAqaraError error)) store now'
          end
      end.
Proof.
  cbn [makeRequest run].
  destruct replies as [ | reply rest ]; [ reflexivity | ].
  cbv zeta. destruct (settle reply kind) as [ body | error ]; [ | reflexivity ].
  destruct (handleAqaraResponse body); reflexivity.
Qed.

(** What a cached read does, case by case. *)
Lemma run_cachedFetch kind key intent' data' ttl replies now store :
  run (cachedFetch kind key intent' data' ttl) replies now store =
    match nc_get now store key with
    | (Some r, store') =>
        match project kind r with
        | Some hit => finish (Returned hit) store' now
        | None => finish TypeConfusion store' now
        end
    | (None, store') =>
        sending {| intent := intent'; reqData := data' |}
          match replies with
          | [] => finish Pending store' now
          | reply :: rest =>
              let now' := now + Z.max 0 (delay reply) in
              match settle reply kind with
              | Responded body =>
                  match handleAqaraResponse body with
                  | Normal e =>
                      finish (Returned e)
                        (nc_set now' store' key (inject kind e) ttl) now'
                  | Throw err => finish (Failed err) store' now'
                  end
              | Rejected error =>
                  finish (Failed (handleAqaraError error)) store' now'
              end
          end
    end.
Proof.
  unfold cachedFetch, cacheGetAs. cbn [run].
  destruct (nc_get now store key) as [ [ r | ] store' ].
  - destruct (project kind r); reflexivity.
  - rewrite run_await_makeRequest. reflexivity.
Qed.

(** A method that only transforms the result of another one runs like it. *)
Lemma run_fmap {A B} (g : A -> B) (p : Prog A) replies now store :
  run (await a <- p; Ret (g a)) replies now store = mapRun g (run p replies now store).
Proof.
  revert replies now store.
  induction p as [ a | e | | key k IH | key val ttl k IH | key k IH | k IH
                 | kind req k IH ]; intros replies now store; cbn [bind run];
    try reflexivity.
  - destruct (nc_get now store key) as [ cached store' ]. apply IH.
  - apply IH.
  - apply IH.
  - apply IH.
  - destruct replies as [ | reply rest ]; [ reflexivity | ].
    rewrite IH. reflexivity.
Qed.

Lemma getDevicesByType_fmap (modelType' : option Z) :
  getDevicesByType modelType' =
    (await response <- getDeviceList 1 100;
     Ret (let devices := extractList response in
          match modelType' with
          | Some m => List.filter (fun device => modelType device =? m) devices
          | None => devices
          end)).
Proof. destruct modelType'; reflexivity. Qed.

(** The cache's own contract: a stored value is returned until its TTL has
    passed, and not after. *)
Lemma nc_set_get (now now' ttl : Z) store key val :
  0 <= now -> 0 < ttl ->
  fst (nc_get now' (nc_set now store key val ttl) key) =
    (if now' <=? now + ttl * 1000 then Some val else None).
Proof.
  intros Hnow Httl. unfold nc_get, nc_set. rewrite lookup_insert_eq.
  unfold expired. cbn [t v].
  destruct (ttl =? 0) eqn:Hz; [ apply Z.eqb_eq in Hz; lia | ].
  destruct (now + ttl * 1000 =? 0) eqn:Hz'; [ apply Z.eqb_eq in Hz'; lia | ].
  cbn [negb andb].
  destruct (now + ttl * 1000 <? now') eqn:Hlt, (now' <=? now + ttl * 1000) eqn:Hle;
    cbn [fst]; try reflexivity.
  - apply Z.ltb_lt in Hlt. apply Z.leb_le in Hle. lia.
  - apply Z.ltb_ge in Hlt. apply Z.leb_gt in Hle. lia.
Qed.

Lemma run_cachedFetch_miss_success kind key intent' data' ttl reply rest now store e :
  fst (nc_get now store key) = None ->
  settle reply kind = Responded (BodyEnvelope e) ->
  code e = 0 ->
  run (cachedFetch kind key intent' data' ttl) (reply :: rest) now store =
    {| outcome := Returned e;
       store_after :=
         nc_set (now + Z.max 0 (delay reply)) (snd (nc_get now store key)) key
           (inject kind e) ttl;
       clock_after := now + Z.max 0 (delay reply);
       sent := [ {| intent := intent'; reqData := data' |} ] |}.
Proof.
  intros Hmiss Hsettle Hcode. rewrite run_cachedFetch.
  destruct (nc_get now store key) as [ cached store' ]. cbn [fst snd] in *.
  subst cached. cbv zeta. rewrite Hsettle.
  unfold handleAqaraResponse. rewrite Hcode. reflexivity.
Qed.

(** The methods that do not cache: the store they leave is the one they
    found, less the status entry that [controlDevice] deletes. *)
Lemma run_uncached_store replies now store :
  (forall deviceId resourceId startTime endTime pageNum pageSize,
     store_after (run (getDeviceHistory deviceId resourceId startTime endTime
                         pageNum pageSize) replies now store) = store)
  /\ (forall sceneId,
        store_after (run (executeScene sceneId) replies now store) = store)
  /\ (forall deviceId resourceId value,
        store_after (run (controlDevice deviceId resourceId value) replies now store)
        = delete (deviceStatusKey deviceId) store).
Proof.
  split; [ | split ]; intros; unfold getDeviceHistory, executeScene, controlDevice;
    cbn [run]; rewrite (run_makeRequest KAny);
    (destruct replies as [ | reply rest ]; [ reflexivity | ]);
    cbv zeta; (destruct (settle reply KAny) as [ body | error ]; [ | reflexivity ]);
    destruct (handleAqaraResponse body); reflexivity.
Qed.

(** C6: after a miss and a successful reply, list-devices leaves its result
    in the cache with expiry 300 s after the reply, get-device-status 30 s,
    list-scenes 600 s; history, scene execution and device control leave no
    entry: the store after them is the store before, less the status entry
    that device control deletes. *)
Theorem cache_ttl_policy (now : Z) (store : gmap string Entry)
    (reply : Reply) (rest : list Reply) :
  let now' := now + Z.max 0 (delay reply) in
  (forall pageNum pageSize e,
     fst (nc_get now store (deviceListKey pageNum pageSize)) = None ->
     settle reply KDevices = Responded (BodyEnvelope e) -> code e = 0 ->
     let r := run (getDeviceList pageNum pageSize) (reply :: rest) now store in
     outcome r = Returned e
     /\ store_after r =
          <[deviceListKey pageNum pageSize := {| t := now' + 300 * 1000; v := RDevices e |}]>
            (snd (nc_get now store (deviceListKey pageNum pageSize))))
  /\ (forall deviceId e,
     fst (nc_get now store (deviceStatusKey deviceId)) = None ->
     settle reply KAny = Responded (BodyEnvelope e) -> code e = 0 ->
     let r := run (getDeviceStatus deviceId) (reply :: rest) now store in
     outcome r = Returned e
     /\ store_after r =
          <[deviceStatusKey deviceId := {| t := now' + 30 * 1000; v := RAny e |}]>
            (snd (nc_get now store (deviceStatusKey deviceId))))
  /\ (forall pageNum pageSize e,
     fst (nc_get now store (sceneListKey pageNum pageSize)) = None ->
     settle reply KScenes = Responded (BodyEnvelope e) -> code e = 0 ->
     let r := run (getSceneList pageNum pageSize) (reply :: rest) now store in
     outcome r = Returned e
     /\ store_after r =
          <[sceneListKey pageNum pageSize := {| t := now' + 600 * 1000; v := RScenes e |}]>
            (snd (nc_get now store (sceneListKey pageNum pageSize))))
  /\ (forall replies deviceId resourceId startTime endTime pageNum pageSize,
        store_after (run (getDeviceHistory deviceId resourceId startTime endTime
                            pageNum pageSize) replies now store) = store)
  /\ (forall replies sceneId,
        store_after (run (executeScene sceneId) replies now store) = store)
  /\ (forall replies deviceId resourceId value,
        store_after (run (controlDevice deviceId resourceId value) replies now store)
        = delete (deviceStatusKey deviceId) store).
Proof.
  cbv zeta.
  split; [ | split; [ | split; [ | split; [ | split ] ] ] ].
  - intros pageNum pageSize e Hmiss Hsettle Hcode.
    rewrite getDeviceList_cachedFetch.
    rewrite (run_cachedFetch_miss_success _ _ _ _ _ _ _ _ _ e Hmiss Hsettle Hcode).
    split; reflexivity.
  - intros deviceId e Hmiss Hsettle Hcode.
    rewrite getDeviceStatus_cachedFetch.
    rewrite (run_cachedFetch_miss_success _ _ _ _ _ _ _ _ _ e Hmiss Hsettle Hcode).
    split; reflexivity.
  - intros pageNum pageSize e Hmiss Hsettle Hcode.
    rewrite getSceneList_cachedFetch.
    rewrite (run_cachedFetch_miss_success _ _ _ _ _ _ _ _ _ e Hmiss Hsettle Hcode).
    split; reflexivity.
  - intros. apply (run_uncached_store replies now store).
  - intros. apply (run_uncached_store replies now store).
  - intros. apply (run_uncached_store replies now store).
Qed.

(** ** Client-side filters *)

(** A list fetch hands at most one request to the limiter, the list query. *)
Lemma getDeviceList_sent pageNum pageSize replies now store :
  let query := {| intent := "query.device.list"; reqData := PageQuery pageNum pageSize |} in
  sent (run (getDeviceList pageNum pageSize) replies now store) = []
  \/ sent (run (getDeviceList pageNum pageSize) replies now store) = [query].
Proof.
  cbv zeta. rewrite getDeviceList_cachedFetch, (run_cachedFetch KDevices).
  destruct (nc_get now store (deviceListKey pageNum pageSize)) as [ [ r | ] store' ].
  - left. destruct (project KDevices r); reflexivity.
  - right. destruct replies as [ | reply rest ]; [ reflexivity | ].
    cbv zeta. destruct (settle reply KDevices) as [ body | error ]; [ | reflexivity ].
    destruct (handleAqaraResponse body); reflexivity.
Qed.

(** C9: [getDevicesByType] and [getOnlineDevices] run exactly like the one
    list fetch [getDeviceList(1, 100)] (same requests, at most one; same
    cache afterwards), and from the envelope that fetch returns they take
    [data] if present, else [result], else the empty list, and return the
    devices of that list with the given model type (all of them when none is
    given), respectively the devices that are online. *)
Theorem getDevicesByType_filters (modelType' : option Z) (replies : list Reply)
    (now : Z) (store : gmap string Entry) :
  let fetch := run (getDeviceList 1 100) replies now store in
  let byType := run (getDevicesByType modelType') replies now store in
  let onlineOnly := run getOnlineDevices replies now store in
  let query := {| intent := "query.device.list"; reqData := PageQuery 1 100 |} in
  (sent fetch = [] \/ sent fetch = [query])
  /\ sent byType = sent fetch /\ store_after byType = store_after fetch
  /\ sent onlineOnly = sent fetch /\ store_after onlineOnly = store_after fetch
  /\ (forall response, outcome fetch = Returned response ->
        let devices :=
          match data response with
          | Some d => d
          | None => match result response with Some r => r | None => [] end
          end in
        outcome byType =
          Returned (match modelType' with
                    | Some m => List.filter (fun device => modelType device =? m) devices
                    | None => devices
                    end)
        /\ outcome onlineOnly =
             Returned (List.filter (fun device => online device) devices)).
Proof.
  cbv zeta.
  assert (Honline : run getOnlineDevices replies now store =
            mapRun (fun response =>
                      List.filter (fun device => online device) (extractList response))
              (run (getDeviceList 1 100) replies now store)).
  { unfold getOnlineDevices. rewrite run_fmap, getDevicesByType_fmap, run_fmap.
    destruct (run (getDeviceList 1 100) replies now store) as [ [ r | e | | ] st ck sn ];
      reflexivity. }
  rewrite Honline, getDevicesByType_fmap, run_fmap.
  split; [ apply getDeviceList_sent | ].
  split; [ reflexivity | ]. split; [ reflexivity | ].
  split; [ reflexivity | ]. split; [ reflexivity | ].
  intros response Hfetch. unfold mapRun. cbn [outcome]. rewrite Hfetch.
  cbn [mapOutcome]. unfold extractList.
  destruct (data response), (result response), modelType'; split; reflexivity.
Qed.

(** ** Invalidation on control *)

(** The synchronous part of a control call: the status entry is deleted and
    the call suspends at its POST. *)
Lemma advance_controlDevice deviceId resourceId value now store :
  let op := OpControlDevice deviceId resourceId value in
  exists resume,
    advance op (perform op) now store =
      (delete (deviceStatusKey deviceId) store,
       inl {| task_op := op; task_kind := KAny;
              task_request := {| intent := "write.device.resource";
                                 reqData := ResourceWrite deviceId
                                              [(deviceId, resourceId, value)] |};
              task_resume := resume |})
    /\ forall settled' now' store',
         fst (advance op (resume settled') now' store') = store'.
Proof.
  cbv zeta. eexists. split; [ reflexivity | ].
  intros settled' now' store'. cbn beta.
  destruct settled' as [ body | error ]; [ | reflexivity ].
  cbn [bind lift]. destruct (handleAqaraResponse body); reflexivity.
Qed.

(** The synchronous part of a status read on a cache without the entry:
    the call suspends at its POST. *)
Lemma advance_getDeviceStatus_miss deviceId now store :
  store !! deviceStatusKey deviceId = None ->
  let op := OpGetDeviceStatus deviceId in
  exists resume,
    advance op (perform op) now store =
      (store,
       inl {| task_op := op; task_kind := KAny;
              task_request := {| intent := "query.device.info";
                                 reqData := DeviceInfoQuery [deviceId] |};
              task_resume := resume |}).
Proof.
  intros Hmiss. cbv zeta. eexists.
  cbn [perform fmap_prog getDeviceStatus cacheGetAs bind advance].
  unfold nc_get. rewrite Hmiss. reflexivity.
Qed.

(** C3: take any state of the client and put any entry [stale] under the
    status key of device D.  A control call for D deletes it in its
    synchronous part, before its POST is even sent, and no continuation of
    that POST touches the cache, whatever the POST returns.  So whatever
    happens afterwards (calls, replies in any order, time passing), the
    client behaves as if nothing had been cached for D: same states, same
    requests, same results.  In particular a status read for D right after
    the control call is sent to the vendor. *)
Theorem controlDevice_invalidates_status (w : World)
    (deviceId resourceId : string) (value : ResourceValue) (stale : Entry)
    (evs : list Event) :
  let key := deviceStatusKey deviceId in
  let control := OpControlDevice deviceId resourceId value in
  let write := {| intent := "write.device.resource";
                  reqData := ResourceWrite deviceId [(deviceId, resourceId, value)] |} in
  let query := {| intent := "query.device.info";
                  reqData := DeviceInfoQuery [deviceId] |} in
  let cachedBefore :=
    {| store := <[key := stale]> (store w); clock := clock w; inflight := inflight w |} in
  let nothingCached :=
    {| store := delete key (store w); clock := clock w; inflight := inflight w |} in
  (exists task,
      step cachedBefore (Call control) =
        ({| store := delete key (store w); clock := clock w;
            inflight := inflight w ++ [task] |}, [Sent control write])
      /\ forall settled' now' store',
           fst (advance control (task_resume task settled') now' store') = store')
  /\ steps cachedBefore (Call control :: evs) = steps nothingCached (Call control :: evs)
  /\ snd (steps cachedBefore [Call control; Call (OpGetDeviceStatus deviceId)])
     = [Sent control write; Sent (OpGetDeviceStatus deviceId) query].
Proof.
  cbv zeta.
  destruct (advance_controlDevice deviceId resourceId value (clock w)
              (<[deviceStatusKey deviceId := stale]> (store w)))
    as (resume & Hadv & Hframe).
  rewrite delete_insert_eq in Hadv.
  split; [ | split ].
  - eexists. split.
    + unfold step. cbn [store clock inflight]. rewrite Hadv. reflexivity.
    + exact Hframe.
  - assert (Hstep :
      step {| store := <[deviceStatusKey deviceId := stale]> (store w);
              clock := clock w; inflight := inflight w |}
        (Call (OpControlDevice deviceId resourceId value))
      = step {| store := delete (deviceStatusKey deviceId) (store w);
                clock := clock w; inflight := inflight w |}
          (Call (OpControlDevice deviceId resourceId value))).
    { unfold step. cbn [store clock inflight].
      cbn [perform fmap_prog controlDevice bind advance makeRequest nc_del settled].
      unfold nc_del. rewrite delete_insert_eq, delete_delete_eq. reflexivity. }
    cbn [steps]. rewrite Hstep. reflexivity.
  - cbn [steps]. unfold step at 1. cbn [store clock inflight]. rewrite Hadv.
    cbn [settled]. unfold step. cbn [store clock inflight].
    destruct (advance_getDeviceStatus_miss deviceId (clock w)
                (delete (deviceStatusKey deviceId) (store w)))
      as (resume' & Hadv').
    { apply lookup_delete_eq. }
    rewrite Hadv'. reflexivity.
Qed.

(** ** Cache keys *)

Lemma numberToString_inj (a b : Z) :
  JS.numberToString a = JS.numberToString b -> a = b.
Proof.
  unfold JS.numberToString. intros H.
  assert (Hnn : forall z, Z.to_int z <> Pos Nil /\ Z.to_int z <> Neg Nil).
  { intros [ | p | p ]; cbn; split; try discriminate;
      intros [= Hp]; exact (DecimalPos.Unsigned.to_uint_nonnil p Hp). }
  apply (f_equal NilZero.int_of_string) in H.
  rewrite !NilZero.isi in H by apply Hnn.
  injection H as H. apply (f_equal Z.of_int) in H.
  rewrite !DecimalZ.of_to in H. exact H.
Qed.

Lemma string_of_uint_no_underscore (d : uint) :
  hasChar "_" (NilEmpty.string_of_uint d) = false.
Proof. induction d; cbn; auto. Qed.

Lemma numberToString_no_underscore (n : Z) :
  hasChar "_" (JS.numberToString n) = false.
Proof.
  unfold JS.numberToString, NilZero.string_of_int, NilZero.string_of_uint.
  destruct (Z.to_int n) as [ d | d ]; destruct d; cbn;
    try reflexivity; apply string_of_uint_no_underscore.
Qed.

(** Two strings without "_" that are followed by "_" and agree afterwards
    are equal, and so is what follows. *)
Lemma split_at_underscore (s1 s2 t1 t2 : string) :
  hasChar "_" s1 = false -> hasChar "_" s2 = false ->
  s1 +:+ String "_" t1 = s2 +:+ String "_" t2 ->
  s1 = s2 /\ t1 = t2.
Proof.
  revert s2. induction s1 as [ | c s1 IH ]; intros [ | c' s2 ] H1 H2 Heq.
  - injection Heq as ->. split; reflexivity.
  - injection Heq as <- _. cbn in H2. discriminate H2.
  - injection Heq as -> _. cbn in H1. discriminate H1.
  - injection Heq as -> Heq. cbn in H1, H2.
    apply orb_false_iff in H1 as [_ H1]. apply orb_false_iff in H2 as [_ H2].
    destruct (IH s2 H1 H2 Heq) as [-> ->]. split; reflexivity.
Qed.

Lemma paged_key_inj (prefix : string) (p s p' s' : Z) :
  prefix +:+ JS.numberToString p +:+ "_" +:+ JS.numberToString s
  = prefix +:+ JS.numberToString p' +:+ "_" +:+ JS.numberToString s' ->
  p = p' /\ s = s'.
Proof.
  intros H. apply String.app_inj in H.
  apply split_at_underscore in H as [Hp Hs];
    try apply numberToString_no_underscore.
  split; apply numberToString_inj; assumption.
Qed.

Lemma deviceListKey_inj p s p' s' :
  deviceListKey p s = deviceListKey p' s' -> p = p' /\ s = s'.
Proof. apply paged_key_inj. Qed.

Lemma sceneListKey_inj p s p' s' :
  sceneListKey p s = sceneListKey p' s' -> p = p' /\ s = s'.
Proof. apply paged_key_inj. Qed.

Lemma deviceStatusKey_inj d d' :
  deviceStatusKey d = deviceStatusKey d' -> d = d'.
Proof. unfold deviceStatusKey. apply String.app_inj. Qed.

(** "devices_" and "device_status_" part at their seventh character,
    and both start with another character than "scenes_". *)
Lemma deviceListKey_not_status p s d : deviceListKey p s <> deviceStatusKey d.
Proof.
  unfold deviceListKey, deviceStatusKey. intros H.
  cbv [String.append] in H. discriminate H.
Qed.

Lemma deviceListKey_not_scenes p s p' s' : deviceListKey p s <> sceneListKey p' s'.
Proof.
  unfold deviceListKey, sceneListKey. intros H.
  cbv [String.append] in H. discriminate H.
Qed.

Lemma deviceStatusKey_not_scenes d p s : deviceStatusKey d <> sceneListKey p s.
Proof.
  unfold deviceStatusKey, sceneListKey. intros H.
  cbv [String.append] in H. discriminate H.
Qed.

(** A set under one key does not change what a get under another returns. *)
Lemma nc_get_set_other now now' store key key' val ttl :
  key <> key' ->
  fst (nc_get now' (nc_set now store key val ttl) key') = fst (nc_get now' store key').
Proof.
  intros Hne. unfold nc_get, nc_set. rewrite lookup_insert_ne by exact Hne.
  destruct (store !! key') as [ e | ]; [ | reflexivity ].
  destruct (expired now' e); reflexivity.
Qed.

(** A cached read leaves every key but its own as it found it, and what it
    returns without a request is what the store holds under its key. *)
Lemma run_cachedFetch_own_key kind key intent' data' ttl replies now store :
  let r := run (cachedFetch kind key intent' data' ttl) replies now store in
  (forall key', key' <> key -> store_after r !! key' = store !! key')
  /\ (forall e, sent r = [] -> outcome r = Returned e ->
        exists entry, store !! key = Some entry /\ v entry = inject kind e).
Proof.
  cbv zeta. rewrite run_cachedFetch. unfold nc_get.
  destruct (store !! key) as [ entry | ] eqn:Hkey.
  - destruct (expired now entry).
    + split.
      * intros key' Hne.
        assert (Hdel : (delete key store : gmap string Entry) !! key' = store !! key')
          by (apply lookup_delete_ne; congruence).
        destruct replies as [ | reply rest ]; [ exact Hdel | ].
        cbv zeta. destruct (settle reply kind) as [ body | error ]; [ | exact Hdel ].
        destruct (handleAqaraResponse body); [ | exact Hdel ].
        cbn [sending finish store_after]. unfold nc_set.
        rewrite lookup_insert_ne by congruence. exact Hdel.
      * intros e Hsent. destruct replies; discriminate Hsent.
    + split.
      * intros key' Hne. destruct (project kind (v entry)); reflexivity.
      * intros e _ Hout. exists entry. split; [ reflexivity | ].
        destruct kind, (v entry); cbn in Hout; try discriminate Hout;
          injection Hout as ->; reflexivity.
  - split.
    + intros key' Hne.
      destruct replies as [ | reply rest ]; [ reflexivity | ].
      cbv zeta. destruct (settle reply kind) as [ body | error ]; [ | reflexivity ].
      destruct (handleAqaraResponse body); [ | reflexivity ].
      cbn [sending finish store_after]. unfold nc_set.
      apply lookup_insert_ne. congruence.
    + intros e Hsent. destruct replies; discriminate Hsent.
Qed.

(** ** Time strings *)

Section DateRoundTrip.
Import JSDate.

Lemma yearFromDay_spec (d : Z) :
  DayFromYear (yearFromDay d) <= d < DayFromYear (yearFromDay d + 1).
Proof.
  unfold yearFromDay. cbv zeta.
  set (y := 1970 + d * 400 / 146097).
  assert (Hlo : DayFromYear (y - 1) <= d).
  { unfold DayFromYear, y. Z.div_mod_to_equations. lia. }
  assert (Hhi : d < DayFromYear (y + 2)).
  { unfold DayFromYear, y. Z.div_mod_to_equations. lia. }
  destruct (Z.leb_spec (DayFromYear (y + 1)) d) as [H1 | H1].
  - replace (y + 1 + 1) with (y + 2) by lia. lia.
  - destruct (Z.leb_spec (DayFromYear y) d) as [H2 | H2].
    + lia.
    + replace (y - 1 + 1) with y by lia. lia.
Qed.

Lemma DayFromYear_succ (y : Z) :
  DayFromYear (y + 1) = DayFromYear y + 365 + (if isLeapYear y then 1 else 0).
Proof.
  unfold DayFromYear, isLeapYear.
  destruct (Z.eqb_spec (y mod 4) 0), (Z.eqb_spec (y mod 100) 0),
           (Z.eqb_spec (y mod 400) 0);
    cbn [negb andb orb]; Z.div_mod_to_equations; lia.
Qed.

Lemma yearFromDay_range (d : Z) :
  -100000000 <= d <= 100000000 -> -271821 <= yearFromDay d <= 275760.
Proof.
  intros Hd. pose proof (yearFromDay_spec d) as Hy.
  unfold DayFromYear in Hy. Z.div_mod_to_equations. lia.
Qed.

Lemma monthFromDayInYear_spec (leap : bool) (d : Z) :
  0 <= d < 365 + (if leap then 1 else 0) ->
  let m := monthFromDayInYear leap d in
  0 <= m <= 11 /\ 1 <= d - daysBeforeMonth leap m + 1 <= 31.
Proof.
  intros Hd. cbv zeta. unfold monthFromDayInYear.
  repeat match goal with
         | |- context [ if ?a <? ?b then _ else _ ] =>
             destruct (Z.ltb_spec a b)
         end;
    destruct leap; cbn in *; lia.
Qed.

Lemma digitValue_digitChar (d : Z) :
  0 <= d <= 9 -> digitValue (digitChar d) = Some d.
Proof.
  intros Hd.
  assert (Hcases : d = 0 \/ d = 1 \/ d = 2 \/ d = 3 \/ d = 4 \/ d = 5
                   \/ d = 6 \/ d = 7 \/ d = 8 \/ d = 9) by lia.
  repeat (destruct Hcases as [-> | Hcases]; [ reflexivity | ]).
  subst d. reflexivity.
Qed.

Lemma padDigits_app (w : nat) (n : Z) (acc : string) :
  padDigits w n acc = pad w n +:+ acc.
Proof.
  unfold pad. revert n acc. induction w as [ | w IH ]; intros n acc.
  - reflexivity.
  - cbn [padDigits]. rewrite (IH (n / 10) (String _ acc)), (IH (n / 10) (String _ "")).
    rewrite append_assoc. reflexivity.
Qed.

Lemma pad_snoc (w : nat) (n : Z) (rest : string) :
  pad (S w) n +:+ rest = pad w (n / 10) +:+ String (digitChar (n mod 10)) rest.
Proof.
  unfold pad at 1. cbn [padDigits]. rewrite padDigits_app, append_assoc. reflexivity.
Qed.

Lemma digits_cons (w : nat) (acc : Z) (c : ascii) (rest : string) :
  digits (S w) acc (String c rest) =
    match digitValue c with
    | Some d => digits w (10 * acc + d) rest
    | None => None
    end.
Proof. reflexivity. Qed.

Lemma digits_succ (w : nat) (acc : Z) (s : string) :
  digits (S w) acc s =
    match digits w acc s with
    | Some (a, r) => digits 1 a r
    | None => None
    end.
Proof.
  revert acc s. induction w as [ | w IH ]; intros acc s.
  - reflexivity.
  - destruct s as [ | c rest ]; [ reflexivity | ].
    rewrite (digits_cons (S w)), (digits_cons w).
    destruct (digitValue c) as [ d | ]; [ | reflexivity ].
    apply IH.
Qed.

Lemma digits_pad (w : nat) (n acc : Z) (rest : string) :
  0 <= n < 10 ^ Z.of_nat w ->
  digits w acc (pad w n +:+ rest) = Some (acc * 10 ^ Z.of_nat w + n, rest).
Proof.
  revert n rest. induction w as [ | w IH ]; intros n rest Hn.
  - cbn in *. f_equal. f_equal. lia.
  - rewrite Nat2Z.inj_succ, Z.pow_succ_r in * by lia.
    rewrite pad_snoc, digits_succ, IH by (Z.div_mod_to_equations; lia).
    cbn [digits]. rewrite digitValue_digitChar by (Z.div_mod_to_equations; lia).
    f_equal. f_equal. Z.div_mod_to_equations. lia.
Qed.

(** A zero-padded number does not start with a character that is no digit. *)
Lemma expect_pad (c : ascii) (w : nat) (n : Z) (rest : string) :
  digitValue c = None -> expect c (pad (S w) n +:+ rest) = None.
Proof.
  intros Hc. revert n rest. induction w as [ | w IH ]; intros n rest.
  - rewrite pad_snoc. cbn [pad padDigits]. 
    change ("" +:+ String (digitChar (n mod 10)) rest)
      with (String (digitChar (n mod 10)) rest).
    cbn [expect]. destruct (Ascii.eqb_spec c (digitChar (n mod 10))) as [-> | ];
      [ | reflexivity ].
    rewrite digitValue_digitChar in Hc by (Z.div_mod_to_equations; lia).
    discriminate Hc.
  - rewrite pad_snoc. apply IH.
Qed.

Lemma expect_same (c : ascii) (rest : string) : expect c (String c rest) = Some rest.
Proof. cbn [expect]. rewrite Ascii.eqb_refl. reflexivity. Qed.

Lemma parseYear_format (y : Z) (rest : string) :
  -999999 <= y <= 999999 ->
  parseYear
    ((if (0 <=? y) && (y <=? 9999) then pad 4 y
      else if y <? 0 then "-" +:+ pad 6 (- y) else "+" +:+ pad 6 y) +:+ rest)
  = Some (y, false, rest).
Proof.
  intros Hy. unfold parseYear.
  destruct (Z.leb_spec 0 y) as [H0 | H0];
    [ destruct (Z.leb_spec y 9999) as [H1 | H1] | ]; cbn [andb].
  - rewrite !expect_pad by reflexivity.
    rewrite digits_pad by (cbn; lia). reflexivity.
  - destruct (Z.ltb_spec y 0) as [H2 | H2]; [ lia | ].
    change (("+" +:+ pad 6 y) +:+ rest) with (String "+" (pad 6 y +:+ rest)).
    rewrite expect_same. rewrite digits_pad by (cbn; lia). reflexivity.
  - destruct (Z.ltb_spec y 0) as [H2 | H2]; [ | lia ].
    change (("-" +:+ pad 6 (- y)) +:+ rest) with (String "-" (pad 6 (- y) +:+ rest)).
    rewrite expect_same.
    change (expect "+" (String "-" (pad 6 (- y) +:+ rest))) with (@None string).
    rewrite digits_pad by (cbn; lia). cbn [mbind option_bind].
    destruct (Z.eqb_spec (0 * 10 ^ Z.of_nat 6 + - y) 0) as [Hz | Hz]; [ lia | ].
    f_equal. f_equal. f_equal. lia.
Qed.

Lemma parseDashed_pad (n : Z) (rest : string) :
  0 <= n < 100 ->
  parseDashed (String "-" (pad 2 n +:+ rest)) = Some (Some n, rest).
Proof.
  intros Hn. unfold parseDashed. rewrite expect_same.
  rewrite digits_pad by (cbn; lia). reflexivity.
Qed.

Lemma parseTime_format (h m s ms : Z) :
  0 <= h < 100 -> 0 <= m < 100 -> 0 <= s < 100 -> 0 <= ms < 1000 ->
  parseTime (pad 2 h +:+ String ":" (pad 2 m +:+ String ":" (pad 2 s +:+
               String "." (pad 3 ms +:+ String "Z" ""))))
  = Some ((h, m, s, ms), Some (1, 0, 0)).
Proof.
  intros Hh Hm Hs Hms. unfold parseTime.
  rewrite digits_pad by (cbn; lia). cbn [mbind option_bind].
  rewrite expect_same. cbn [mbind option_bind].
  rewrite digits_pad by (cbn; lia). cbn [mbind option_bind].
  rewrite expect_same.
  rewrite digits_pad by (cbn; lia). cbn [mbind option_bind].
  rewrite expect_same.
  rewrite digits_pad by (cbn; lia). cbn [mbind option_bind].
  reflexivity.
Qed.

Lemma parseFields_formatISO (y month date h m s ms : Z) :
  -999999 <= y <= 999999 -> 0 <= month < 100 -> 0 <= date < 100 ->
  0 <= h < 100 -> 0 <= m < 100 -> 0 <= s < 100 -> 0 <= ms < 1000 ->
  parseFields (formatISO y month date h m s ms) =
    Some {| f_year := y; f_minusZero := false; f_month := month; f_day := date;
            f_time := Some (h, m, s, ms); f_offset := Some (1, 0, 0) |}.
Proof.
  intros Hy Hmo Hd Hh Hm Hs Hms. unfold formatISO, parseFields. cbv zeta.
  rewrite parseYear_format by exact Hy. cbn [mbind option_bind].
  change ("-" +:+ pad 2 month +:+ ?r) with (String "-" (pad 2 month +:+ r)).
  rewrite parseDashed_pad by exact Hmo. cbn [mbind option_bind].
  change ("-" +:+ pad 2 date +:+ ?r) with (String "-" (pad 2 date +:+ r)).
  rewrite parseDashed_pad by exact Hd. cbn [mbind option_bind].
  change ("T" +:+ ?r) with (String "T" r).
  rewrite expect_same. cbn [mbind option_bind].
  change (pad 2 h +:+ ":" +:+ pad 2 m +:+ ":" +:+ pad 2 s +:+ "." +:+ pad 3 ms +:+ "Z")
    with (pad 2 h +:+ String ":" (pad 2 m +:+ String ":" (pad 2 s +:+
               String "." (pad 3 ms +:+ String "Z" "")))).
  rewrite parseTime_format by assumption. reflexivity.
Qed.

(** A time value printed by [toISOString] parses back to itself, on every
    engine. *)
Lemma parse_toISOString (pf : Platform) (tv : Z) :
  Z.abs tv <= 8640000000000000 ->
  parse pf (toISOString tv) = Some tv.
Proof.
  intros Htv. unfold parse, toISOString. cbv zeta.
  set (day := tv / msPerDay). set (ms := tv mod msPerDay).
  set (y := yearFromDay day). set (leap := isLeapYear y).
  set (dayInYear := day - DayFromYear y).
  set (m := monthFromDayInYear leap dayInYear).
  assert (Hday : -100000000 <= day <= 100000000).
  { unfold day, msPerDay. Z.div_mod_to_equations. lia. }
  assert (Hms : 0 <= ms < 86400000).
  { unfold ms, msPerDay. Z.div_mod_to_equations. lia. }
  pose proof (yearFromDay_range day Hday) as Hy.
  pose proof (yearFromDay_spec day) as Hspec. fold y in Hy, Hspec.
  rewrite DayFromYear_succ in Hspec. fold leap in Hspec.
  assert (Hdiy : 0 <= dayInYear < 365 + (if leap then 1 else 0))
    by (unfold dayInYear; lia).
  destruct (monthFromDayInYear_spec leap dayInYear Hdiy) as [Hm Hdate].
  fold m in Hm, Hdate.
  rewrite parseFields_formatISO
    by (try lia; Z.div_mod_to_equations; lia).
  unfold inBounds, timeValue. cbn [f_minusZero f_month f_day f_time f_offset f_year negb].
  replace (m + 1 - 1) with m by lia.
  assert (Hbounds :
    (1 <=? m + 1) && (m + 1 <=? 12)
    && (1 <=? dayInYear - daysBeforeMonth leap m + 1)
    && (dayInYear - daysBeforeMonth leap m + 1 <=? 31)
    && (((ms / 3600000 <=? 23)
         || (ms / 3600000 =? 24) && (ms / 60000 mod 60 =? 0)
            && (ms / 1000 mod 60 =? 0) && (ms mod 1000 =? 0))
        && (ms / 60000 mod 60 <=? 59) && (ms / 1000 mod 60 <=? 59))
    && ((0 <=? 23) && (0 <=? 59)) = true).
  { repeat (apply andb_true_intro; split); try (apply Z.leb_le);
      try lia; try reflexivity; try (Z.div_mod_to_equations; lia). }
  cbn [andb] in Hbounds |- *. rewrite Hbounds.
  unfold MakeDay, MakeDate, MakeTime, TimeClip.
  replace (m / 12) with 0 by (Z.div_mod_to_equations; lia).
  replace (m mod 12) with m by (Z.div_mod_to_equations; lia).
  replace (y + 0) with y by lia. fold leap.
  replace ((DayFromYear y + daysBeforeMonth leap m
            + (dayInYear - daysBeforeMonth leap m + 1) - 1) * msPerDay
           + (ms / 3600000 * 3600000 + ms / 60000 mod 60 * 60000
              + ms / 1000 mod 60 * 1000 + ms mod 1000)
           - 1 * (0 * 60 + 0) * 60000) with tv.
  - destruct (Z.leb_spec (Z.abs tv) 8640000000000000); [ reflexivity | lia ].
  - unfold dayInYear, day, ms, msPerDay. Z.div_mod_to_equations. lia.
Qed.

End DateRoundTrip.

(** What the history tool does, case by case: both time strings are parsed
    before the client is called. *)
Lemma run_get_device_history pf args replies now store :
  run (get_device_history pf args) replies now store =
    match JSDate.parse pf (h_startTime args), JSDate.parse pf (h_endTime args) with
    | Some t1, Some t2 =>
        let startTime := JSDate.toISOString t1 in
        let endTime := JSDate.toISOString t2 in
        sending {| intent := "fetch.device.history";
                   reqData := HistoryFetch (h_deviceId args) [h_resourceId args]
                                startTime endTime (h_pageNum args) (h_pageSize args) |}
          match replies with
          | [] => finish Pending store now
          | reply :: _ =>
              let now' := now + Z.max 0 (delay reply) in
              match settle reply KAny with
              | Responded body =>
                  match handleAqaraResponse body with
                  | Normal e =>
                      finish (Returned (HistoryRetrieved (h_deviceId args)
                                          (h_resourceId args) startTime endTime e))
                        store now'
                  | Throw err => finish (Returned (ErrorText (formatError err))) store now'
                  end
              | Rejected error =>
                  finish (Returned (ErrorText (formatError (handleAqaraError error))))
                    store now'
              end
          end
    | _, _ =>
        finish (Returned (ErrorText (formatError (Error invalidTimeFormat)))) store now
    end.
Proof.
  unfold get_device_history, parseTimeString, tryCatch.
  destruct (JSDate.parse pf (h_startTime args)) as [ t1 | ]; [ | reflexivity ].
  destruct (JSDate.parse pf (h_endTime args)) as [ t2 | ]; [ | reflexivity ].
  cbn [lift bind getDeviceHistory makeRequest catch run].
  destruct replies as [ | reply rest ]; [ reflexivity | ].
  cbv zeta. destruct (settle reply KAny) as [ body | error ]; [ | reflexivity ].
  destruct (handleAqaraResponse body); reflexivity.
Qed.

Example formatError_invalidTimeFormat :
  formatError (Error invalidTimeFormat) =
    "Error: Invalid time format. Please use ISO 8601 format (e.g., " +:+ doubleQuote
    +:+ "2024-01-01T00:00:00Z" +:+ doubleQuote +:+ ") or standard date strings.".
Proof. reflexivity. Qed.

(** C4 as stated fails.  On every engine, the start time
    "2024-01-01T00:00:00Z" reaches the vendor as
    "2024-01-01T00:00:00.000Z", which is another string.  And a start time
    that is not in ISO 8601 form, "Mon, 01 Jan 2024 00:00:00 GMT", is not
    rejected where the engine's [Date] reads it: it is parsed and the
    request is sent. *)
Lemma history_startTime_not_verbatim :
  (forall pf,
     sent (run (get_device_history pf historyExample) [] 0 ∅) =
       [ {| intent := "fetch.device.history";
            reqData := HistoryFetch "lumi.158d0001" ["0.1.85"]
                         "2024-01-01T00:00:00.000Z" "2024-01-02T00:00:00.000Z"
                         1 100 |} ])
  /\ h_startTime historyExample = "2024-01-01T00:00:00Z"
  /\ "2024-01-01T00:00:00.000Z" <> h_startTime historyExample
  /\ h_startTime historyUtcString = "Mon, 01 Jan 2024 00:00:00 GMT"
  /\ JSDate.parseFields (h_startTime historyUtcString) = None
  /\ sent (run (get_device_history utcStringEngine historyUtcString) [] 0 ∅) =
       [ {| intent := "fetch.device.history";
            reqData := HistoryFetch "lumi.158d0001" ["0.1.85"]
                         "2024-01-01T00:00:00.000Z" "2024-01-02T00:00:00.000Z"
                         1 100 |} ].
Proof.
  split; [ | split; [ | split; [ | split; [ | split ] ] ] ].
  - intros pf. rewrite run_get_device_history. reflexivity.
  - reflexivity.
  - discriminate.
  - reflexivity.
  - vm_compute. reflexivity.
  - rewrite run_get_device_history. vm_compute. reflexivity.
Qed.

(** C4, amended: a history fetch whose start (or end) time the engine's
    [Date] cannot parse is answered with the error text that names the
    expected format, and nothing is sent; that is so for "not-a-date" on
    every engine whose fallback parser does not read it (the string is
    outside the standard format).  A time outside the standard format that
    the fallback parser does read is parsed, not rejected.  A start time
    that parses is accepted and forwarded as [toISOString] prints the
    parsed time: "2024-01-01T00:00:00Z" becomes "2024-01-01T00:00:00.000Z".
    A string that [toISOString] itself printed is forwarded verbatim, on
    every engine; the shape alone is not enough:
    "2024-01-01T24:00:00.000Z" becomes "2024-01-02T00:00:00.000Z". *)
Theorem history_times_normalised (pf : JSDate.Platform) (args : HistoryArgs)
    (replies : list Reply) (now : Z) (store : gmap string Entry) :
  let r := run (get_device_history pf args) replies now store in
  (JSDate.parse pf (h_startTime args) = None \/ JSDate.parse pf (h_endTime args) = None ->
     r = finish (Returned (ErrorText (formatError (Error invalidTimeFormat)))) store now
     /\ sent r = []
     /\ JS.includes (formatError (Error invalidTimeFormat)) "ISO 8601" = true)
  /\ (forall t1 t2,
        JSDate.parse pf (h_startTime args) = Some t1 ->
        JSDate.parse pf (h_endTime args) = Some t2 ->
        sent r = [ {| intent := "fetch.device.history";
                      reqData := HistoryFetch (h_deviceId args) [h_resourceId args]
                                   (JSDate.toISOString t1) (JSDate.toISOString t2)
                                   (h_pageNum args) (h_pageSize args) |} ])
  /\ (JSDate.legacyParse pf "not-a-date" = None ->
      h_startTime args = "not-a-date" ->
        r = finish (Returned (ErrorText (formatError (Error invalidTimeFormat)))) store now
        /\ sent r = [])
  /\ (forall tv,
        JSDate.parseFields (h_startTime args) = None ->
        JSDate.legacyParse pf (h_startTime args) = Some tv ->
        JSDate.parse pf (h_startTime args) = Some tv)
  /\ option_map JSDate.toISOString (JSDate.parse pf "2024-01-01T00:00:00Z")
     = Some "2024-01-01T00:00:00.000Z"
  /\ option_map JSDate.toISOString (JSDate.parse pf "2024-01-01T24:00:00.000Z")
     = Some "2024-01-02T00:00:00.000Z"
  /\ (forall tv, Z.abs tv <= 8640000000000000 ->
        option_map JSDate.toISOString (JSDate.parse pf (JSDate.toISOString tv))
        = Some (JSDate.toISOString tv)).
Proof.
  cbv zeta. rewrite run_get_device_history.
  split; [ | split; [ | split; [ | split; [ | split; [ | split ] ] ] ] ].
  - intros [Hstart | Hend].
    + rewrite Hstart. split; [ reflexivity | split; reflexivity ].
    + rewrite Hend. destruct (JSDate.parse pf (h_startTime args));
        (split; [ reflexivity | split; reflexivity ]).
  - intros t1 t2 Hstart Hend. rewrite Hstart, Hend. cbv zeta.
    destruct replies as [ | reply rest ]; [ reflexivity | ].
    destruct (settle reply KAny) as [ body | error ]; [ | reflexivity ].
    destruct (handleAqaraResponse body); reflexivity.
  - intros Hlegacy Hstart. rewrite Hstart.
    change (JSDate.parse pf "not-a-date") with (JSDate.legacyParse pf "not-a-date").
    rewrite Hlegacy. split; reflexivity.
  - intros tv Hfields Hlegacy. unfold JSDate.parse. rewrite Hfields. exact Hlegacy.
  - reflexivity.
  - reflexivity.
  - intros tv Htv. rewrite parse_toISOString by exact Htv. reflexivity.
Qed.

(** On an engine without a fallback parser, "not-a-date" is rejected and
    nothing is sent. *)
Example history_not_a_date :
  run (get_device_history JSDate.strictUTC
         {| h_deviceId := "lumi.158d0001"; h_resourceId := "0.1.85";
            h_startTime := "not-a-date"; h_endTime := "2024-01-02T00:00:00Z";
            h_pageNum := 1; h_pageSize := 100 |}) [] 0 ∅
  = finish (Returned (ErrorText (formatError (Error invalidTimeFormat)))) ∅ 0.
Proof. rewrite run_get_device_history. reflexivity. Qed.

(** ** The cache stays well typed *)

Lemma wellTyped_empty : wellTyped ∅.
Proof. intros key e H. rewrite lookup_empty in H. discriminate H. Qed.

Lemma wellTyped_delete store key : wellTyped store -> wellTyped (delete key store).
Proof.
  intros Hwt key' e H. apply lookup_delete_Some in H as [_ H]. exact (Hwt key' e H).
Qed.

Lemma wellTyped_checkData now store : wellTyped store -> wellTyped (nc_checkData now store).
Proof.
  intros Hwt key e H. unfold nc_checkData in H.
  apply map_lookup_filter_Some in H as [H _]. exact (Hwt key e H).
Qed.

Lemma wellTyped_get now store key :
  wellTyped store -> wellTyped (snd (nc_get now store key)).
Proof.
  intros Hwt. unfold nc_get. destruct (store !! key) as [ e | ]; [ | exact Hwt ].
  destruct (expired now e); [ apply wellTyped_delete | ]; exact Hwt.
Qed.

Lemma nc_get_Some now store key r :
  fst (nc_get now store key) = Some r -> exists e, store !! key = Some e /\ v e = r.
Proof.
  unfold nc_get. destruct (store !! key) as [ e | ]; [ | discriminate ].
  destruct (expired now e); [ discriminate | ].
  intros [= <-]. exists e. split; reflexivity.
Qed.

Lemma wellTyped_set_devices now store p s r ttl :
  wellTyped store -> wellTyped (nc_set now store (deviceListKey p s) (RDevices r) ttl).
Proof.
  intros Hwt key e H. unfold nc_set in H.
  apply lookup_insert_Some in H as [[<- <-] | [_ H]]; [ | exact (Hwt key e H) ].
  cbn [v]. split; [ | split ].
  - intros. eexists. reflexivity.
  - intros d Heq. destruct (deviceListKey_not_status _ _ _ Heq).
  - intros p' s' Heq. destruct (deviceListKey_not_scenes _ _ _ _ Heq).
Qed.

Lemma wellTyped_set_status now store d r ttl :
  wellTyped store -> wellTyped (nc_set now store (deviceStatusKey d) (RAny r) ttl).
Proof.
  intros Hwt key e H. unfold nc_set in H.
  apply lookup_insert_Some in H as [[<- <-] | [_ H]]; [ | exact (Hwt key e H) ].
  cbn [v]. split; [ | split ].
  - intros p s Heq. symmetry in Heq. destruct (deviceListKey_not_status _ _ _ Heq).
  - intros. eexists. reflexivity.
  - intros p' s' Heq. destruct (deviceStatusKey_not_scenes _ _ _ Heq).
Qed.

Lemma wellTyped_set_scenes now store p s r ttl :
  wellTyped store -> wellTyped (nc_set now store (sceneListKey p s) (RScenes r) ttl).
Proof.
  intros Hwt key e H. unfold nc_set in H.
  apply lookup_insert_Some in H as [[<- <-] | [_ H]]; [ | exact (Hwt key e H) ].
  cbn [v]. split; [ | split ].
  - intros p' s' Heq. symmetry in Heq. destruct (deviceListKey_not_scenes _ _ _ _ Heq).
  - intros d Heq. symmetry in Heq. destruct (deviceStatusKey_not_scenes _ _ _ Heq).
  - intros. eexists. reflexivity.
Qed.

(** A continuation that ends a call is a completing task; [typing] closes
    the typing of the cache it leaves. *)
Ltac settle_cases typing :=
  let settled' := fresh "settled" in
  let now' := fresh "now" in
  let store' := fresh "store" in
  let Hwt' := fresh "Hwt" in
  intros settled' now' store' Hwt'; cbn [task_op task_resume task_kind payload] in *;
  destruct settled' as [ body | error ];
  [ cbn [bind lift advance]; destruct (handleAqaraResponse body) as [ e | err ] | ];
  cbn [bind lift advance]; eexists _, _;
  (split; [ reflexivity | split; [ discriminate | ] ]);
  typing.

Lemma advance_perform_well (op : Operation) (now : Z) (store : gmap string Entry) :
  wellTyped store -> advancesWell (advance op (perform op) now store).
Proof.
  intros Hwt. unfold advancesWell.
  destruct op as [ p s | d | d rid val | p s | sid | d rid st et p s | m | | ];
    cbn [perform fmap_prog getDeviceList getDeviceStatus controlDevice getSceneList
         executeScene getDeviceHistory getDevicesByType getOnlineDevices clearCache
         cacheGetAs makeRequest bind advance].
  - (* getDeviceList *)
    pose proof (wellTyped_get now store (deviceListKey p s) Hwt) as Hwt'.
    pose proof (nc_get_Some now store (deviceListKey p s)) as Hhit.
    destruct (nc_get now store (deviceListKey p s)) as [ [ r | ] store' ];
      cbn [fst snd] in *.
    + destruct (Hhit r eq_refl) as (e & He & <-).
      destruct (proj1 (Hwt _ _ He) _ _ eq_refl) as (r' & Hr). rewrite Hr.
      cbn. split; [ exact Hwt' | discriminate ].
    + cbn. split; [ exact Hwt' | ].
      settle_cases ltac:(auto using wellTyped_set_devices).
  - (* getDeviceStatus *)
    pose proof (wellTyped_get now store (deviceStatusKey d) Hwt) as Hwt'.
    pose proof (nc_get_Some now store (deviceStatusKey d)) as Hhit.
    destruct (nc_get now store (deviceStatusKey d)) as [ [ r | ] store' ];
      cbn [fst snd] in *.
    + destruct (Hhit r eq_refl) as (e & He & <-).
      destruct (proj1 (proj2 (Hwt _ _ He)) _ eq_refl) as (r' & Hr). rewrite Hr.
      cbn. split; [ exact Hwt' | discriminate ].
    + cbn. split; [ exact Hwt' | ].
      settle_cases ltac:(auto using wellTyped_set_status).
  - (* controlDevice *)
    cbn. split; [ apply wellTyped_delete; exact Hwt | settle_cases ltac:(auto) ].
  - (* getSceneList *)
    pose proof (wellTyped_get now store (sceneListKey p s) Hwt) as Hwt'.
    pose proof (nc_get_Some now store (sceneListKey p s)) as Hhit.
    destruct (nc_get now store (sceneListKey p s)) as [ [ r | ] store' ];
      cbn [fst snd] in *.
    + destruct (Hhit r eq_refl) as (e & He & <-).
      destruct (proj2 (proj2 (Hwt _ _ He)) _ _ eq_refl) as (r' & Hr). rewrite Hr.
      cbn. split; [ exact Hwt' | discriminate ].
    + cbn. split; [ exact Hwt' | ].
      settle_cases ltac:(auto using wellTyped_set_scenes).
  - (* executeScene *)
    cbn. split; [ exact Hwt | settle_cases ltac:(auto) ].
  - (* getDeviceHistory *)
    cbn. split; [ exact Hwt | settle_cases ltac:(auto) ].
  - (* getDevicesByType *)
    pose proof (wellTyped_get now store (deviceListKey 1 100) Hwt) as Hwt'.
    pose proof (nc_get_Some now store (deviceListKey 1 100)) as Hhit.
    destruct (nc_get now store (deviceListKey 1 100)) as [ [ r | ] store' ];
      cbn [fst snd] in *.
    + destruct (Hhit r eq_refl) as (e & He & <-).
      destruct (proj1 (Hwt _ _ He) _ _ eq_refl) as (r' & Hr). rewrite Hr.
      destruct m; cbn; (split; [ exact Hwt' | discriminate ]).
    + cbn. split; [ exact Hwt' | ].
      intros settled' now' store'' Hwt''. cbn [task_op task_resume task_kind payload] in *.
      destruct settled' as [ body | error ];
        [ cbn [bind lift advance]; destruct (handleAqaraResponse body) as [ e | err ] | ];
        cbn [bind lift advance]; try destruct m; cbn [bind advance]; eexists _, _;
        (split; [ reflexivity | split; [ discriminate | ] ]);
        auto using wellTyped_set_devices.
  - (* getOnlineDevices *)
    pose proof (wellTyped_get now store (deviceListKey 1 100) Hwt) as Hwt'.
    pose proof (nc_get_Some now store (deviceListKey 1 100)) as Hhit.
    destruct (nc_get now store (deviceListKey 1 100)) as [ [ r | ] store' ];
      cbn [fst snd] in *.
    + destruct (Hhit r eq_refl) as (e & He & <-).
      destruct (proj1 (Hwt _ _ He) _ _ eq_refl) as (r' & Hr). rewrite Hr.
      cbn. split; [ exact Hwt' | discriminate ].
    + cbn. split; [ exact Hwt' | ].
      settle_cases ltac:(auto using wellTyped_set_devices).
  - (* clearCache *)
    cbn. split; [ apply wellTyped_empty | discriminate ].
Qed.

Lemma step_consistent (w : World) (ev : Event) :
  consistent w ->
  consistent (fst (step w ev))
  /\ forall op, Done op TypeConfusion ∉ snd (step w ev).
Proof.
  intros [Hwt Htasks]. destruct ev as [ op | i reply | ms | ]; cbn [step].
  - pose proof (advance_perform_well op (clock w) (store w) Hwt) as [Hwt' Hres].
    destruct (advance op (perform op) (clock w) (store w)) as [ store' [ task | out ] ];
      cbn [fst snd settled] in *.
    + split; [ split; [ exact Hwt' | ] | ].
      * apply Forall_app. split; [ exact Htasks | ].
        apply Forall_cons. split; [ exact Hres | apply Forall_nil_2 ].
      * intros op' Hin. apply list_elem_of_singleton in Hin. discriminate Hin.
    + split; [ split; [ exact Hwt' | exact Htasks ] | ].
      intros op' Hin. apply list_elem_of_singleton in Hin.
      injection Hin as _ <-. apply Hres. reflexivity.
  - destruct (inflight w !! i) as [ task | ] eqn:Htask.
    + assert (Hc : completes task).
      { rewrite Forall_forall in Htasks. apply Htasks.
        eapply list_elem_of_lookup_2. exact Htask. }
      destruct (Hc (reply (task_kind task)) (clock w) (store w) Hwt)
        as (store' & out & Hadv & Hout & Hwt').
      rewrite Hadv. cbn [fst snd settled].
      split; [ split; [ exact Hwt' | ] | ].
      * cbn [inflight]. apply Forall_delete. exact Htasks.
      * intros op' Hin. apply list_elem_of_singleton in Hin.
        injection Hin as _ <-. apply Hout. reflexivity.
    + cbn [fst snd]. split; [ split; assumption | ].
      intros op' Hin. apply elem_of_nil in Hin. exact Hin.
  - cbn [fst snd]. split; [ split; assumption | ].
    intros op' Hin. apply elem_of_nil in Hin. exact Hin.
  - cbn [fst snd]. split; [ split; [ apply wellTyped_checkData | ]; assumption | ].
    intros op' Hin. apply elem_of_nil in Hin. exact Hin.
Qed.

(** Along any interleaving of calls, replies, time and periodic checks, the
    cache stays well typed and no call reads a value of another type than
    the one it asserts. *)
Lemma steps_consistent (evs : list Event) (w : World) :
  consistent w ->
  consistent (fst (steps w evs))
  /\ forall op, Done op TypeConfusion ∉ snd (steps w evs).
Proof.
  revert w. induction evs as [ | ev evs IH ]; intros w Hw.
  - cbn. split; [ exact Hw | ]. intros op Hin. apply elem_of_nil in Hin. exact Hin.
  - cbn [steps]. destruct (step_consistent w ev Hw) as [Hw' Hobs].
    destruct (step w ev) as [ w' obs ]. cbn [fst snd] in *.
    destruct (IH w' Hw') as [Hw'' Hobs'].
    destruct (steps w' evs) as [ w'' obs' ]. cbn [fst snd] in *.
    split; [ exact Hw'' | ].
    intros op Hin. apply elem_of_app in Hin as [Hin | Hin].
    + exact (Hobs op Hin).
    + exact (Hobs' op Hin).
Qed.

Lemma initialWorld_consistent (now : Z) : consistent (initialWorld now).
Proof. split; [ apply wellTyped_empty | apply Forall_nil_2 ]. Qed.

(** C10: the three key builders are injective in their parameters and no
    key of one equals a key of another; each cached read touches the store
    under its own key only: it leaves every other key as it was, and a
    result it returns without a request is the value stored under its own
    key; and from the constructor's state on, along any interleaving of
    calls and replies, no call ever reads from the cache a response of
    another type than its own. *)
Theorem cache_keys_injective :
  (forall p s p' s', deviceListKey p s = deviceListKey p' s' -> p = p' /\ s = s')
  /\ (forall d d', deviceStatusKey d = deviceStatusKey d' -> d = d')
  /\ (forall p s p' s', sceneListKey p s = sceneListKey p' s' -> p = p' /\ s = s')
  /\ (forall p s d, deviceListKey p s <> deviceStatusKey d)
  /\ (forall p s p' s', deviceListKey p s <> sceneListKey p' s')
  /\ (forall d p s, deviceStatusKey d <> sceneListKey p s)
  /\ (forall replies now store,
        (forall p s,
           let r := run (getDeviceList p s) replies now store in
           (forall key', key' <> deviceListKey p s -> store_after r !! key' = store !! key')
           /\ (forall e, sent r = [] -> outcome r = Returned e ->
                 exists entry, store !! deviceListKey p s = Some entry
                               /\ v entry = RDevices e))
        /\ (forall d,
           let r := run (getDeviceStatus d) replies now store in
           (forall key', key' <> deviceStatusKey d -> store_after r !! key' = store !! key')
           /\ (forall e, sent r = [] -> outcome r = Returned e ->
                 exists entry, store !! deviceStatusKey d = Some entry
                               /\ v entry = RAny e))
        /\ (forall p s,
           let r := run (getSceneList p s) replies now store in
           (forall key', key' <> sceneListKey p s -> store_after r !! key' = store !! key')
           /\ (forall e, sent r = [] -> outcome r = Returned e ->
                 exists entry, store !! sceneListKey p s = Some entry
                               /\ v entry = RScenes e)))
  /\ (forall now evs op,
        Done op TypeConfusion ∉ snd (steps (initialWorld now) evs)).
Proof.
  split; [ | split; [ | split; [ | split; [ | split; [ | split; [ | split ] ] ] ] ] ].
  - apply deviceListKey_inj.
  - apply deviceStatusKey_inj.
  - apply sceneListKey_inj.
  - apply deviceListKey_not_status.
  - apply deviceListKey_not_scenes.
  - apply deviceStatusKey_not_scenes.
  - intros replies now store. split; [ | split ].
    + intros p s. rewrite getDeviceList_cachedFetch.
      apply (run_cachedFetch_own_key KDevices).
    + intros d. rewrite getDeviceStatus_cachedFetch.
      apply (run_cachedFetch_own_key KAny).
    + intros p s. rewrite getSceneList_cachedFetch.
      apply (run_cachedFetch_own_key KScenes).
  - intros now evs.
    apply (steps_consistent evs (initialWorld now) (initialWorld_consistent now)).
Qed.

(** ** Sample runs *)

(** A list fetch on an empty cache at time 1000 whose reply takes 50 ms:
    the result is cached until 1050 + 300 000. *)
Example getDeviceList_miss_then_cached :
  let r := run (getDeviceList 1 30) [successAfter 50 "r1" ""] 1000 ∅ in
  outcome r = Returned (success "r1" [lamp; sensor])
  /\ sent r = [ {| intent := "query.device.list"; reqData := PageQuery 1 30 |} ]
  /\ store_after r !! "devices_1_30"
     = Some {| t := 301050; v := RDevices (success "r1" [lamp; sensor]) |}.
Proof. vm_compute. repeat split; reflexivity. Qed.

(** The same call again: a hit up to the expiry time, a request after it. *)
Example getDeviceList_hit_until_expiry :
  let cached := store_after (run (getDeviceList 1 30) [successAfter 50 "r1" ""] 1000 ∅) in
  sent (run (getDeviceList 1 30) [] 301050 cached) = []
  /\ outcome (run (getDeviceList 1 30) [] 301050 cached)
     = Returned (success "r1" [lamp; sensor])
  /\ sent (run (getDeviceList 1 30) [] 301051 cached)
     = [ {| intent := "query.device.list"; reqData := PageQuery 1 30 |} ].
Proof. vm_compute. repeat split; reflexivity. Qed.

Example getDeviceStatus_ttl :
  store_after (run (getDeviceStatus "lumi.158d0001") [successAfter 20 "r2" "on"] 5000 ∅)
    !! "device_status_lumi.158d0001"
  = Some {| t := 35020; v := RAny (success "r2" "on") |}.
Proof. vm_compute. reflexivity. Qed.

Example getSceneList_ttl :
  store_after (run (getSceneList 2 10) [successAfter 0 "r3" ""] 7000 ∅)
    !! "scenes_2_10"
  = Some {| t := 607000; v := RScenes (success "r3" []) |}.
Proof. vm_compute. reflexivity. Qed.

(** A vendor error is thrown as an [AqaraError] and nothing is cached. *)
Example getDeviceStatus_vendor_error :
  let r := run (getDeviceStatus "lumi.158d0001") [failureAfter 10] 1000 ∅ in
  outcome r = Failed (AqaraError (Some 108) (Some "Token is invalid")
                                 (Some "accessToken") (Some "r9"))
  /\ store_after r = ∅.
Proof. vm_compute. split; reflexivity. Qed.

Example getDevicesByType_sample :
  outcome (run (getDevicesByType (Some 3)) [successAfter 50 "r1" ""] 1000 ∅)
    = Returned [sensor]
  /\ outcome (run (getDevicesByType None) [successAfter 50 "r1" ""] 1000 ∅)
    = Returned [lamp; sensor]
  /\ outcome (run getOnlineDevices [successAfter 50 "r1" ""] 1000 ∅)
    = Returned [lamp].
Proof. vm_compute. repeat split; reflexivity. Qed.

(** A cached status, a control call that fails, and a status read: the read
    goes to the vendor. *)
Example control_then_status :
  let cached :=
    store_after (run (getDeviceStatus "d1") [successAfter 0 "r1" "off"] 0 ∅) in
  snd (steps {| store := cached; clock := 10; inflight := [] |}
         [ Call (OpControlDevice "d1" "4.1.85" (ValBool true));
           Settle 0 (settle (failureAfter 0));
           Call (OpGetDeviceStatus "d1") ])
  = [ Sent (OpControlDevice "d1" "4.1.85" (ValBool true))
        {| intent := "write.device.resource";
           reqData := ResourceWrite "d1" [("d1", "4.1.85", ValBool true)] |};
      Done (OpControlDevice "d1" "4.1.85" (ValBool true))
        (Failed (AqaraError (Some 108) (Some "Token is invalid")
                            (Some "accessToken") (Some "r9")));
      Sent (OpGetDeviceStatus "d1")
        {| intent := "query.device.info"; reqData := DeviceInfoQuery ["d1"] |} ].
Proof. vm_compute. reflexivity. Qed.

(** The invalidation covers what is in the cache at the control call.  A
    status read that is in flight at that moment stores its reply when it
    arrives, after the control call, and a later read returns it from the
    cache. *)
Example status_in_flight_across_control :
  snd (steps (initialWorld 0)
         [ Call (OpGetDeviceStatus "d1");
           Call (OpControlDevice "d1" "4.1.85" (ValBool true));
           Settle 0 (settle (successAfter 0 "r1" "off"));
           Settle 0 (settle (successAfter 0 "r2" "done"));
           Call (OpGetDeviceStatus "d1") ])
  = [ Sent (OpGetDeviceStatus "d1")
        {| intent := "query.device.info"; reqData := DeviceInfoQuery ["d1"] |};
      Sent (OpControlDevice "d1" "4.1.85" (ValBool true))
        {| intent := "write.device.resource";
           reqData := ResourceWrite "d1" [("d1", "4.1.85", ValBool true)] |};
      Done (OpGetDeviceStatus "d1") (Returned (ResResponse (RAny (success "r1" "off"))));
      Done (OpControlDevice "d1" "4.1.85" (ValBool true))
        (Returned (ResResponse (RAny (success "r2" "done"))));
      Done (OpGetDeviceStatus "d1") (Returned (ResResponse (RAny (success "r1" "off")))) ].
Proof. vm_compute. reflexivity. Qed.

Example handleAqaraResponse_sample :
  handleAqaraResponse (BodyEnvelope (success "r1" [lamp])) = Normal (success "r1" [lamp])
  /\ handleAqaraResponse
       (BodyEnvelope
          {| code := 108; requestId := "r9"; message := "Token is invalid";
             msgDetails := Some "accessToken"; result := @None Any; data := None |})
     = Throw (AqaraError (Some 108) (Some "Token is invalid")
                         (Some "accessToken") (Some "r9"))
  /\ handleAqaraResponse (@BodyText Any "<html>Bad Gateway</html>")
     = Throw (AqaraError None None None None).
Proof. repeat split; reflexivity. Qed.

(** * Further properties of the client and of the tool layer *)

(** ** Running wrapped methods *)

Lemma run_catch {A} (h : JSError -> A) (p : Prog A) replies now store :
  run (catch p (fun error => Ret (h error))) replies now store
  = recoverRun h (run p replies now store).
Proof.
  revert replies now store.
  induction p as [ a | e | | key k IH | key val ttl k IH | key k IH | k IH
                 | kind req k IH ]; intros replies now store; cbn [catch run];
    try reflexivity.
  - destruct (nc_get now store key) as [ cached store' ]. apply IH.
  - apply IH.
  - apply IH.
  - apply IH.
  - destruct replies as [ | reply rest ]; [ reflexivity | ].
    rewrite IH. reflexivity.
Qed.

Lemma project_inject kind (e : AqaraResponse (payload kind)) :
  project kind (inject kind e) = Some e.
Proof. destruct kind; reflexivity. Qed.

Lemma run_perform_read (c : CachedRead) replies now store :
  run (perform (readOperation c)) replies now store
  = mapRun (fun e => ResResponse (inject (readKind c) e))
      (run (cachedFetch (readKind c) (readKey c) (intent (readRequest c))
              (reqData (readRequest c)) (readTtl c)) replies now store).
Proof.
  destruct c; cbn [readOperation perform]; unfold fmap_prog; rewrite run_fmap;
    reflexivity.
Qed.

Lemma nc_get_subset now store key k x :
  snd (nc_get now store key) !! k = Some x -> store !! k = Some x.
Proof.
  unfold nc_get. destruct (store !! key) as [ e | ]; [ | auto ].
  destruct (expired now e); [ | auto ].
  cbn [snd]. intros H. apply lookup_delete_Some in H as [_ H]. exact H.
Qed.

(** ** One request per call *)

Lemma oneShot_mapRun {A B} (g : A -> B) replies (r : Run A) :
  oneShot replies r -> oneShot replies (mapRun g r).
Proof.
  unfold oneShot, mapRun. cbn [outcome sent]. intros [Hlen Hpend].
  split; [ exact Hlen | ]. rewrite <- Hpend.
  destruct (outcome r); cbn; split; intros H; congruence.
Qed.

Lemma oneShot_recoverRun {A} (h : JSError -> A) replies (r : Run A) :
  oneShot replies r -> oneShot replies (recoverRun h r).
Proof.
  unfold oneShot, recoverRun. cbn [outcome sent]. intros [Hlen Hpend].
  split; [ exact Hlen | ]. rewrite <- Hpend.
  destruct (outcome r); cbn; split; intros H; congruence.
Qed.

Lemma oneShot_makeRequest kind intent' data' replies now store :
  oneShot replies (run (makeRequest kind intent' data') replies now store).
Proof.
  rewrite run_makeRequest. unfold oneShot.
  destruct replies as [ | reply rest ]; cbn.
  - split; [ lia | ]. split; [ intros _; split; [ reflexivity | discriminate ] | reflexivity ].
  - destruct (settle reply kind) as [ body | error ];
      [ destruct (handleAqaraResponse body) | ]; cbn;
      (split; [ lia | split; [ discriminate | intros [H _]; discriminate H ] ]).
Qed.

Lemma oneShot_cachedFetch kind key intent' data' ttl replies now store :
  oneShot replies (run (cachedFetch kind key intent' data' ttl) replies now store).
Proof.
  rewrite run_cachedFetch. unfold oneShot.
  destruct (nc_get now store key) as [ [ r | ] store' ].
  - destruct (project kind r); cbn;
      (split; [ lia | split; [ discriminate | intros [_ H]; contradiction ] ]).
  - destruct replies as [ | reply rest ]; cbn.
    + split; [ lia | ]. split; [ intros _; split; [ reflexivity | discriminate ] | reflexivity ].
    + destruct (settle reply kind) as [ body | error ];
        [ destruct (handleAqaraResponse body) | ]; cbn;
        (split; [ lia | split; [ discriminate | intros [H _]; discriminate H ] ]).
Qed.

(** X1: whatever the cache holds and however the vendor answers, a client
    method hands at most one request to the limiter (a failed request is
    not repeated), and it is left waiting exactly when it sent a request
    and no reply came: with a reply it always finishes. *)
Theorem operation_sends_at_most_one_request (op : Operation)
    (replies : list Reply) (now : Z) (store : gmap string Entry) :
  let r := run (perform op) replies now store in
  (length (sent r) <= 1)%nat
  /\ (outcome r = Pending <-> replies = [] /\ sent r <> []).
Proof.
  cbv zeta. change (oneShot replies (run (perform op) replies now store)).
  destruct op as [ p s | d | d rid val | p s | sid | d rid st et p s | m | | ];
    cbn [perform]; unfold fmap_prog.
  - rewrite run_fmap, getDeviceList_cachedFetch.
    apply oneShot_mapRun, (oneShot_cachedFetch KDevices).
  - rewrite run_fmap, getDeviceStatus_cachedFetch.
    apply oneShot_mapRun, (oneShot_cachedFetch KAny).
  - rewrite run_fmap. apply oneShot_mapRun. unfold controlDevice. cbn [run].
    apply (oneShot_makeRequest KAny).
  - rewrite run_fmap, getSceneList_cachedFetch.
    apply oneShot_mapRun, (oneShot_cachedFetch KScenes).
  - rewrite run_fmap. apply oneShot_mapRun, (oneShot_makeRequest KAny).
  - rewrite run_fmap. apply oneShot_mapRun, (oneShot_makeRequest KAny).
  - rewrite run_fmap, getDevicesByType_fmap, run_fmap, getDeviceList_cachedFetch.
    apply oneShot_mapRun, oneShot_mapRun, (oneShot_cachedFetch KDevices).
  - rewrite run_fmap. unfold getOnlineDevices.
    rewrite (run_fmap (List.filter (fun device => online device))).
    rewrite getDevicesByType_fmap, run_fmap, getDeviceList_cachedFetch.
    apply oneShot_mapRun, oneShot_mapRun, oneShot_mapRun, (oneShot_cachedFetch KDevices).
  - rewrite run_fmap. apply oneShot_mapRun. unfold oneShot. cbn.
    split; [ lia | split; [ discriminate | intros [_ H]; contradiction ] ].
Qed.


(** ** What the cache keeps and what it does not *)

(** X2: a cached read that throws, because the vendor answered with an
    error code or because the POST was rejected, adds nothing to the cache:
    every entry there afterwards was there before. *)
Theorem failed_read_is_not_cached (c : CachedRead) (replies : list Reply)
    (now : Z) (store : gmap string Entry) (err : JSError) :
  let r := run (perform (readOperation c)) replies now store in
  outcome r = Failed err ->
  forall key entry, store_after r !! key = Some entry -> store !! key = Some entry.
Proof.
  cbv zeta. rewrite run_perform_read, run_cachedFetch.
  pose proof (nc_get_subset now store (readKey c)) as Hsub.
  destruct (nc_get now store (readKey c)) as [ [ r | ] store' ]; cbn [snd] in Hsub.
  - destruct (project (readKind c) r); cbn; discriminate.
  - destruct replies as [ | reply rest ]; [ cbn; discriminate | ].
    cbv zeta. destruct (settle reply (readKind c)) as [ body | error ].
    + destruct (handleAqaraResponse body); cbn; [ discriminate | ].
      intros _. exact Hsub.
    + cbn. intros _. exact Hsub.
Qed.

Lemma failed_read_is_not_cached_witness :
  outcome (run (perform (readOperation (ReadDeviceStatus "d1")))
             [failureAfter 10] 1000 (nc_set 0 ∅ "devices_1_30" (RDevices (success "r0" [lamp])) 300))
  = Failed (AqaraError (Some 108) (Some "Token is invalid")
                       (Some "accessToken") (Some "r9"))
  /\ (forall key entry,
        store_after (run (perform (readOperation (ReadDeviceStatus "d1")))
                       [failureAfter 10] 1000
                       (nc_set 0 ∅ "devices_1_30" (RDevices (success "r0" [lamp])) 300))
          !! key = Some entry ->
        nc_set 0 ∅ "devices_1_30" (RDevices (success "r0" [lamp])) 300 !! key = Some entry).
Proof.
  split; [ reflexivity | ].
  apply (failed_read_is_not_cached (ReadDeviceStatus "d1") [failureAfter 10] 1000
           (nc_set 0 ∅ "devices_1_30" (RDevices (success "r0" [lamp])) 300)
           (AqaraError (Some 108) (Some "Token is invalid")
                       (Some "accessToken") (Some "r9"))).
  reflexivity.
Defined.

Lemma run_read_miss_success (c : CachedRead) reply rest now store
    (e : AqaraResponse (payload (readKind c))) :
  fst (nc_get now store (readKey c)) = None ->
  settle reply (readKind c) = Responded (BodyEnvelope e) ->
  code e = 0 ->
  run (perform (readOperation c)) (reply :: rest) now store =
    {| outcome := Returned (ResResponse (inject (readKind c) e));
       store_after :=
         nc_set (now + Z.max 0 (delay reply)) (snd (nc_get now store (readKey c)))
           (readKey c) (inject (readKind c) e) (readTtl c);
       clock_after := now + Z.max 0 (delay reply);
       sent := [readRequest c] |}.
Proof.
  intros Hmiss Hsettle Hcode. rewrite run_perform_read.
  rewrite (run_cachedFetch_miss_success _ _ _ _ _ _ _ _ _ e Hmiss Hsettle Hcode).
  destruct c; reflexivity.
Qed.

(** X3: after a miss and a successful fetch, the same read is answered from
    the cache, with the same response and without a request, at any time up
    to the lifetime of the entry (300 s, 30 s, 600 s) after the reply; at
    any later time the entry has expired and the read sends its request
    again. *)
Theorem cached_read_hits_until_expiry (c : CachedRead) (reply : Reply)
    (rest replies : list Reply) (now later : Z) (store : gmap string Entry)
    (e : AqaraResponse (payload (readKind c))) :
  0 <= now ->
  fst (nc_get now store (readKey c)) = None ->
  settle reply (readKind c) = Responded (BodyEnvelope e) ->
  code e = 0 ->
  let first := run (perform (readOperation c)) (reply :: rest) now store in
  let again := run (perform (readOperation c)) replies later (store_after first) in
  let expiry := now + Z.max 0 (delay reply) + readTtl c * 1000 in
  outcome first = Returned (ResResponse (inject (readKind c) e))
  /\ (later <= expiry ->
        sent again = [] /\ outcome again = outcome first
        /\ store_after again = store_after first)
  /\ (expiry < later -> sent again = [readRequest c]).
Proof.
  intros Hnow Hmiss Hsettle Hcode. cbv zeta.
  rewrite (run_read_miss_success c reply rest now store e Hmiss Hsettle Hcode).
  cbn [outcome store_after].
  split; [ reflexivity | ].
  set (base := snd (nc_get now store (readKey c))).
  rewrite run_perform_read, run_cachedFetch.
  unfold nc_get, nc_set. rewrite !lookup_insert_eq.
  unfold expired. cbn [t v].
  assert (Httl : (readTtl c =? 0) = false) by (destruct c; reflexivity).
  assert (Hpos : 0 < readTtl c) by (destruct c; reflexivity).
  rewrite Httl.
  assert (Hnz : (now + Z.max 0 (delay reply) + readTtl c * 1000 =? 0) = false)
    by (apply Z.eqb_neq; lia).
  rewrite Hnz. cbn [negb andb].
  split.
  - intros Hle.
    assert (Hlt : (now + Z.max 0 (delay reply) + readTtl c * 1000 <? later) = false)
      by (apply Z.ltb_ge; lia).
    rewrite Hlt, project_inject. cbn.
    split; [ reflexivity | split; reflexivity ].
  - intros Hgt.
    assert (Hlt : (now + Z.max 0 (delay reply) + readTtl c * 1000 <? later) = true)
      by (apply Z.ltb_lt; lia).
    rewrite Hlt.
    destruct replies as [ | reply' rest' ]; [ destruct c; reflexivity | ].
    cbv zeta. destruct (settle reply' (readKind c)) as [ body | error ];
      [ destruct (handleAqaraResponse body) | ]; destruct c; reflexivity.
Qed.

Lemma cached_read_hits_until_expiry_witness :
  0 <= 1000 /\
  let c := ReadDeviceList 1 30 in
  let first := run (perform (readOperation c)) [successAfter 50 "r1" ""] 1000 ∅ in
  let again := run (perform (readOperation c)) [] 301050 (store_after first) in
  outcome first = Returned (ResResponse (RDevices (success "r1" [lamp; sensor])))
  /\ (301050 <= 1000 + Z.max 0 50 + 300 * 1000 ->
        sent again = [] /\ outcome again = outcome first
        /\ store_after again = store_after first)
  /\ (1000 + Z.max 0 50 + 300 * 1000 < 301050 -> sent again = [readRequest c]).
Proof.
  split; [ lia | ].
  apply (cached_read_hits_until_expiry (ReadDeviceList 1 30) (successAfter 50 "r1" "")
           [] [] 1000 301050 ∅ (success "r1" [lamp; sensor])).
  - lia.
  - reflexivity.
  - reflexivity.
  - reflexivity.
Defined.

(** X4: clearing the cache empties it without a request, and whatever was
    cached before, the next cached read of any kind sends its request. *)
Theorem clear_cache_forces_fetch (c : CachedRead) (replies : list Reply)
    (now later : Z) (store : gmap string Entry) :
  let cleared := run clear_cache [] now store in
  outcome cleared = Returned CacheCleared
  /\ sent cleared = []
  /\ store_after cleared = ∅
  /\ sent (run (perform (readOperation c)) replies later (store_after cleared))
     = [readRequest c].
Proof.
  cbv zeta. unfold clear_cache. rewrite run_catch.
  rewrite (run_fmap (fun _ : unit => CacheCleared)). cbn.
  split; [ reflexivity | split; [ reflexivity | split; [ reflexivity | ] ] ].
  rewrite run_perform_read, run_cachedFetch.
  unfold nc_get, nc_flushAll. rewrite lookup_empty.
  destruct replies as [ | reply rest ]; [ destruct c; reflexivity | ].
  cbv zeta. destruct (settle reply (readKind c)) as [ body | error ];
    [ destruct (handleAqaraResponse body) | ]; destruct c; reflexivity.
Qed.

(** X5: device control, scene execution and the history fetch never read
    the cache: with any two caches they send the same single request and
    end the same way. *)
Theorem writes_and_history_bypass_cache (replies : list Reply) (now : Z)
    (store store' : gmap string Entry) :
  (forall deviceId resourceId value,
     let r := run (controlDevice deviceId resourceId value) replies now store in
     let r' := run (controlDevice deviceId resourceId value) replies now store' in
     outcome r = outcome r' /\ sent r = sent r'
     /\ sent r = [ {| intent := "write.device.resource";
                      reqData := ResourceWrite deviceId
                                   [(deviceId, resourceId, value)] |} ])
  /\ (forall sceneId,
        let r := run (executeScene sceneId) replies now store in
        let r' := run (executeScene sceneId) replies now store' in
        outcome r = outcome r' /\ sent r = sent r'
        /\ sent r = [ {| intent := "config.scene.run"; reqData := SceneRun sceneId |} ])
  /\ (forall deviceId resourceId startTime endTime pageNum pageSize,
        let r := run (getDeviceHistory deviceId resourceId startTime endTime
                        pageNum pageSize) replies now store in
        let r' := run (getDeviceHistory deviceId resourceId startTime endTime
                         pageNum pageSize) replies now store' in
        outcome r = outcome r' /\ sent r = sent r'
        /\ sent r = [ {| intent := "fetch.device.history";
                         reqData := HistoryFetch deviceId [resourceId] startTime
                                      endTime pageNum pageSize |} ]).
Proof.
  split; [ | split ]; intros; subst r r';
    unfold controlDevice, executeScene, getDeviceHistory; cbn [run];
    rewrite !(run_makeRequest KAny);
    (destruct replies as [ | reply rest ];
     [ split; [ reflexivity | split; reflexivity ] | ]);
    cbv zeta; (destruct (settle reply KAny) as [ body | error ];
               [ destruct (handleAqaraResponse body) | ]);
    (split; [ reflexivity | split; reflexivity ]).
Qed.

(** X6: a control call for a device removes the status entry of that
    device and nothing else: the cached device lists, the cached scene
    lists and the status entries of every other device stay as they were,
    whatever the vendor answers. *)
Theorem controlDevice_invalidates_only_its_status (deviceId resourceId : string)
    (value : ResourceValue) (replies : list Reply) (now : Z)
    (store : gmap string Entry) :
  let after := store_after (run (controlDevice deviceId resourceId value)
                              replies now store) in
  after !! deviceStatusKey deviceId = None
  /\ (forall other, other <> deviceId ->
        after !! deviceStatusKey other = store !! deviceStatusKey other)
  /\ (forall pageNum pageSize,
        after !! deviceListKey pageNum pageSize = store !! deviceListKey pageNum pageSize)
  /\ (forall pageNum pageSize,
        after !! sceneListKey pageNum pageSize = store !! sceneListKey pageNum pageSize).
Proof.
  cbv zeta.
  destruct (run_uncached_store replies now store) as (_ & _ & Hcontrol).
  rewrite Hcontrol.
  split; [ apply lookup_delete_eq | split; [ | split ] ].
  - intros other Hne. apply lookup_delete_ne.
    intros Heq. apply deviceStatusKey_inj in Heq. congruence.
  - intros p s. apply lookup_delete_ne.
    intros Heq. symmetry in Heq. exact (deviceListKey_not_status _ _ _ Heq).
  - intros p s. apply lookup_delete_ne. apply deviceStatusKey_not_scenes.
Qed.

(** ** The tool boundary *)

Lemma recoverOutcome_not_failed {A} (h : JSError -> A) (o : Outcome A) (err : JSError) :
  recoverOutcome h o <> Failed err.
Proof. destruct o; discriminate. Qed.

(** X7: no tool, resource or prompt lets an error escape: whatever the
    arguments, the cache and the replies are, the run never ends in a thrown
    error (a failure comes back as the returned text). *)
Theorem tool_boundary_never_throws (replies : list Reply) (now : Z)
    (store : gmap string Entry) (err : JSError) :
  (forall call, outcome (run (execute call) replies now store) <> Failed err)
  /\ (forall pf args,
        outcome (run (get_device_history pf args) replies now store) <> Failed err)
  /\ outcome (run devices_resource replies now store) <> Failed err
  /\ outcome (run scenes_resource replies now store) <> Failed err
  /\ outcome (run online_devices_resource replies now store) <> Failed err
  /\ outcome (run home_status replies now store) <> Failed err.
Proof.
  split; [ | split; [ | split; [ | split; [ | split ] ] ] ].
  - intros call.
    destruct call; unfold execute, list_devices, get_device_status, control_device,
      list_scenes, execute_scene, clear_cache;
      rewrite run_catch; apply recoverOutcome_not_failed.
  - intros pf args. unfold get_device_history.
    rewrite (run_catch (fun error => ErrorText (formatError error))).
    apply recoverOutcome_not_failed.
  - unfold devices_resource. rewrite run_catch. apply recoverOutcome_not_failed.
  - unfold scenes_resource. rewrite run_catch. apply recoverOutcome_not_failed.
  - unfold online_devices_resource. rewrite run_catch. apply recoverOutcome_not_failed.
  - unfold home_status. rewrite (run_catch (fun _ => HomeStatusGeneric)).
    apply recoverOutcome_not_failed.
Qed.

(** When the one request of a method fails with [err], the method throws
    [err], provided it sent a request at all. *)
Lemma cachedFetch_failure kind key intent' data' ttl reply rest now store err :
  match settle reply kind with
  | Responded body => handleAqaraResponse body = Throw err
  | Rejected error => handleAqaraError error = err
  end ->
  let r := run (cachedFetch kind key intent' data' ttl) (reply :: rest) now store in
  sent r <> [] -> outcome r = Failed err.
Proof.
  intros Hfail. cbv zeta. rewrite run_cachedFetch.
  destruct (nc_get now store key) as [ [ hit | ] store' ].
  - destruct (project kind hit); cbn; intros H; contradiction.
  - cbv zeta. destruct (settle reply kind) as [ body | error ].
    + rewrite Hfail. reflexivity.
    + rewrite Hfail. reflexivity.
Qed.

Lemma makeRequest_failure kind intent' data' reply rest now store err :
  match settle reply kind with
  | Responded body => handleAqaraResponse body = Throw err
  | Rejected error => handleAqaraError error = err
  end ->
  outcome (run (makeRequest kind intent' data') (reply :: rest) now store) = Failed err.
Proof.
  intros Hfail. rewrite run_makeRequest. cbv zeta.
  destruct (settle reply kind) as [ body | error ]; rewrite Hfail; reflexivity.
Qed.

Lemma execute_failure (call : ToolCall) reply rest now store err :
  (forall kind,
     match settle reply kind with
     | Responded body => handleAqaraResponse body = Throw err
     | Rejected error => handleAqaraError error = err
     end) ->
  let r := run (execute call) (reply :: rest) now store in
  sent r <> [] -> outcome r = Returned (ToolFailed (formatError err)).
Proof.
  intros Hfail. cbv zeta.
  destruct call as [ [ p s [ | ] ] | d | d rid val | [ p s en ] | sid | ];
    unfold execute, list_devices, get_device_status, control_device,
      list_scenes, execute_scene, clear_cache; cbn [ld_onlineOnly ld_pageNum ld_pageSize
      ls_pageNum ls_pageSize ls_enabledOnly];
    rewrite run_catch.
  - rewrite run_fmap. unfold getOnlineDevices.
    rewrite (run_fmap (List.filter (fun device => online device))).
    rewrite getDevicesByType_fmap, run_fmap, getDeviceList_cachedFetch.
    cbn [recoverRun mapRun sent outcome]. intros Hsent.
    pose proof (cachedFetch_failure KDevices _ _ _ _ _ _ _ _ err (Hfail KDevices) Hsent) as Hout.
    cbn [payload] in Hout. rewrite Hout. reflexivity.
  - rewrite run_fmap, getDeviceList_cachedFetch.
    cbn [recoverRun mapRun sent outcome]. intros Hsent.
    pose proof (cachedFetch_failure KDevices _ _ _ _ _ _ _ _ err (Hfail KDevices) Hsent) as Hout.
    cbn [payload] in Hout. rewrite Hout. reflexivity.
  - rewrite run_fmap, getDeviceStatus_cachedFetch.
    cbn [recoverRun mapRun sent outcome]. intros Hsent.
    pose proof (cachedFetch_failure KAny _ _ _ _ _ _ _ _ err (Hfail KAny) Hsent) as Hout.
    cbn [payload] in Hout. rewrite Hout. reflexivity.
  - rewrite run_fmap. unfold controlDevice. cbn [run].
    cbn [recoverRun mapRun sent outcome]. intros _.
    match goal with
    | |- context [run (makeRequest ?k ?i ?d) _ ?n ?st] =>
        pose proof (makeRequest_failure k i d reply rest n st err (Hfail k)) as Hout
    end.
    cbn [payload] in Hout. rewrite Hout. reflexivity.
  - rewrite (run_fmap (fun response =>
               ScenesRetrieved
                 (length (if en
                          then List.filter (fun scene => Bool.eqb (enable scene) true)
                                 (extractList response)
                          else extractList response))
                 (if en
                  then List.filter (fun scene => Bool.eqb (enable scene) true)
                         (extractList response)
                  else extractList response))).
    rewrite getSceneList_cachedFetch.
    cbn [recoverRun mapRun sent outcome]. intros Hsent.
    pose proof (cachedFetch_failure KScenes _ _ _ _ _ _ _ _ err (Hfail KScenes) Hsent) as Hout.
    cbn [payload] in Hout. rewrite Hout. reflexivity.
  - rewrite run_fmap. unfold executeScene.
    cbn [recoverRun mapRun sent outcome]. intros _.
    match goal with
    | |- context [run (makeRequest ?k ?i ?d) _ ?n ?st] =>
        pose proof (makeRequest_failure k i d reply rest n st err (Hfail k)) as Hout
    end.
    cbn [payload] in Hout. rewrite Hout. reflexivity.
  - rewrite (run_fmap (fun _ : unit => CacheCleared)). cbn. intros H. contradiction.
Qed.

(** X8: when the vendor answers the request of a tool with a code other
    than 0, the tool returns the text "Aqara API Error (<code>): <message>",
    followed by " - <msgDetails>" when the envelope has details. *)
Theorem tool_reports_vendor_error (call : ToolCall) (ms code' : Z)
    (message' : string) (details : option string) (requestId' : string)
    (rest : list Reply) (now : Z) (store : gmap string Entry) :
  let r := run (execute call)
             (vendorReply ms code' message' details requestId' :: rest) now store in
  code' <> 0 ->
  sent r <> [] ->
  outcome r =
    Returned (ToolFailed
      ("Aqara API Error (" +:+ JS.numberToString code' +:+ "): " +:+ message'
       +:+ (if JS.truthy details then " - " +:+ default "" details else ""))).
Proof.
  cbv zeta. intros Hcode Hsent.
  rewrite (execute_failure call _ rest now store
             (AqaraError (Some code') (Some message') details (Some requestId'))).
  - reflexivity.
  - intros kind. cbn [vendorReply settle]. unfold handleAqaraResponse. cbn [code].
    destruct (Z.eqb_spec code' 0) as [ Heq | _ ]; [ contradiction | reflexivity ].
  - exact Hsent.
Qed.

Lemma tool_reports_vendor_error_witness :
  108 <> 0
  /\ sent (run (execute (CallGetDeviceStatus "d1"))
             [vendorReply 10 108 "Token is invalid" (Some "accessToken") "r9"] 0 ∅) <> []
  /\ outcome (run (execute (CallGetDeviceStatus "d1"))
                [vendorReply 10 108 "Token is invalid" (Some "accessToken") "r9"] 0 ∅)
     = Returned (ToolFailed "Aqara API Error (108): Token is invalid - accessToken").
Proof.
  split; [ discriminate | split; [ discriminate | ] ].
  apply (tool_reports_vendor_error (CallGetDeviceStatus "d1") 10 108
           "Token is invalid" (Some "accessToken") "r9" [] 0 ∅);
    discriminate.
Defined.

(** X9: when the POST of a tool is rejected without a response, the tool
    returns the connection text for ECONNREFUSED, the timeout text for
    ETIMEDOUT, and otherwise "Error: " with the message of the rejection
    (or the name of the error when the message is empty). *)
Theorem tool_reports_transport_failure (call : ToolCall) (ms : Z)
    (error : AxiosError) (rest : list Reply) (now : Z) (store : gmap string Entry) :
  let r := run (execute call) (rejectedReply ms error :: rest) now store in
  ae_response error = None ->
  sent r <> [] ->
  outcome r =
    Returned (ToolFailed
      (if bool_decide (ae_code error = Some "ECONNREFUSED") then
         "Error: Unable to connect to Aqara API. Please check your network connection."
       else if bool_decide (ae_code error = Some "ETIMEDOUT") then
         "Error: Request to Aqara API timed out. Please try again."
       else if JS.truthyString (ae_message error) then "Error: " +:+ ae_message error
       else "Error: AxiosError")).
Proof.
  cbv zeta. intros Hnone Hsent.
  rewrite (execute_failure call _ rest now store (handleAqaraError error)).
  - unfold handleAqaraError. rewrite Hnone.
    destruct (bool_decide (ae_code error = Some "ECONNREFUSED")); [ reflexivity | ].
    destruct (bool_decide (ae_code error = Some "ETIMEDOUT")); [ reflexivity | ].
    unfold formatError, errorToString, errorMessage.
    destruct (JS.truthyString (ae_message error)); reflexivity.
  - intros kind. reflexivity.
  - exact Hsent.
Qed.

Lemma tool_reports_transport_failure_witness :
  let refused := {| ae_response := None; ae_code := Some "ECONNREFUSED";
                    ae_message := "connect ECONNREFUSED 127.0.0.1:443" |} in
  ae_response refused = None
  /\ sent (run (execute (CallExecuteScene "s1")) [rejectedReply 5 refused] 0 ∅) <> []
  /\ outcome (run (execute (CallExecuteScene "s1")) [rejectedReply 5 refused] 0 ∅)
     = Returned (ToolFailed
         "Error: Unable to connect to Aqara API. Please check your network connection.").
Proof.
  cbv zeta. split; [ reflexivity | split; [ discriminate | ] ].
  apply (tool_reports_transport_failure (CallExecuteScene "s1") 5
           {| ae_response := None; ae_code := Some "ECONNREFUSED";
              ae_message := "connect ECONNREFUSED 127.0.0.1:443" |} [] 0 ∅).
  - reflexivity.
  - discriminate.
Defined.

(** ** Errors of the transport and their text *)

(** X10: a rejected POST becomes an [AqaraError] exactly when the rejection
    carries a response with a body.  Its code is the code of the body when
    the body has one other than 0, and the HTTP status when the body has no
    code or the code 0; its message is the message of the body when the
    body has one that is not empty, and the message of the rejection when
    the body has none or an empty one; details and request id are those of
    the body. *)
Theorem handleAqaraError_classification (error : AxiosError) :
  (isAqaraError (handleAqaraError error) = true
   <-> exists status body, ae_response error = Some (status, Some body))
  /\ (forall status body,
        ae_response error = Some (status, Some body) ->
        exists c m,
          handleAqaraError error =
            AqaraError (Some c) (Some m) (eb_msgDetails body) (eb_requestId body)
          /\ (forall bodyCode, eb_code body = Some bodyCode -> bodyCode <> 0 ->
                c = bodyCode)
          /\ (eb_code body = None \/ eb_code body = Some 0 -> c = status)
          /\ (forall text, eb_message body = Some text -> text <> "" -> m = text)
          /\ (eb_message body = None \/ eb_message body = Some "" ->
                m = ae_message error)).
Proof.
  unfold handleAqaraError. split.
  - destruct (ae_response error) as [ [ status [ body | ] ] | ].
    + split; [ intros _; exists status, body; reflexivity | reflexivity ].
    + split.
      * destruct (bool_decide (ae_code error = Some "ECONNREFUSED"));
          [ discriminate | ].
        destruct (bool_decide (ae_code error = Some "ETIMEDOUT")); discriminate.
      * intros (s & b & H). discriminate H.
    + split.
      * destruct (bool_decide (ae_code error = Some "ECONNREFUSED"));
          [ discriminate | ].
        destruct (bool_decide (ae_code error = Some "ETIMEDOUT")); discriminate.
      * intros (s & b & H). discriminate H.
  - intros status body Hresp. rewrite Hresp.
    eexists _, _. split; [ reflexivity | ].
    split; [ | split; [ | split ] ].
    + intros bodyCode Hcode Hnz. rewrite Hcode.
      destruct (Z.eqb_spec bodyCode 0); [ contradiction | reflexivity ].
    + intros [ Hcode | Hcode ]; rewrite Hcode; reflexivity.
    + intros text Htext Hne. rewrite Htext. cbn [JS.truthy default].
      destruct text; [ contradiction | reflexivity ].
    + intros [ Htext | Htext ]; rewrite Htext; reflexivity.
Qed.

Lemma prefix_append (s rest : string) : String.prefix s (s +:+ rest) = true.
Proof.
  induction s as [ | c s IH ].
  - destruct rest; reflexivity.
  - change (String c s +:+ rest) with (String c (s +:+ rest)).
    cbn [String.prefix]. destruct (ascii_dec c c); [ exact IH | contradiction ].
Qed.

(** X11: the text of [formatError] tells the two kinds of error apart: it
    starts with "Aqara API Error (" exactly for an [AqaraError], and with
    "Error: " for every other error. *)
Theorem formatError_prefix (e : JSError) :
  String.prefix "Aqara API Error (" (formatError e) = isAqaraError e
  /\ String.prefix "Error: " (formatError e) = negb (isAqaraError e).
Proof.
  destruct e as [ c m d rid | m | c m ]; unfold formatError, isAqaraError.
  - split; [ apply prefix_append | reflexivity ].
  - split; [ reflexivity | apply prefix_append ].
  - split; [ reflexivity | apply prefix_append ].
Qed.

(** ** The listing tools *)

Lemma mapRun_compose {A B C} (f : A -> B) (g : B -> C) (r : Run A) :
  mapRun g (mapRun f r) = mapRun (fun a => g (f a)) r.
Proof. destruct r as [ [ | | | ] ? ? ? ]; reflexivity. Qed.

Lemma recover_map_returned {A B} (h : JSError -> B) (f : A -> B) (o : Outcome A)
    (b : B) :
  recoverOutcome h (mapOutcome f o) = Returned b ->
  (exists a, o = Returned a /\ b = f a) \/ (exists e, o = Failed e /\ b = h e).
Proof.
  destruct o as [ a | e | | ]; cbn; intros H; try discriminate H;
    injection H as <-; [ left | right ]; eexists; split; reflexivity.
Qed.

Lemma run_list_devices_online pageNum pageSize replies now store :
  run (list_devices {| ld_pageNum := pageNum; ld_pageSize := pageSize;
                       ld_onlineOnly := true |}) replies now store =
    recoverRun (fun error => ToolFailed (formatError error))
      (mapRun (fun response =>
                 let devices :=
                   List.filter (fun device => online device) (extractList response) in
                 OnlineDevicesRetrieved (length devices) devices)
         (run (cachedFetch KDevices (deviceListKey 1 100) "query.device.list"
                 (PageQuery 1 100) 300) replies now store)).
Proof.
  unfold list_devices. cbn [ld_onlineOnly]. rewrite run_catch, run_fmap.
  unfold getOnlineDevices.
  rewrite (run_fmap (List.filter (fun device => online device))).
  rewrite getDevicesByType_fmap, run_fmap, getDeviceList_cachedFetch.
  rewrite !mapRun_compose. reflexivity.
Qed.

Lemma sent_cachedFetch kind key intent' data' ttl replies now store request :
  request ∈ sent (run (cachedFetch kind key intent' data' ttl) replies now store) ->
  request = {| intent := intent'; reqData := data' |}.
Proof.
  rewrite run_cachedFetch.
  destruct (nc_get now store key) as [ [ hit | ] store' ].
  - destruct (project kind hit); cbn; intros H; by apply elem_of_nil in H.
  - destruct replies as [ | reply rest ].
    + cbn. intros H. by apply list_elem_of_singleton in H.
    + cbv zeta. destruct (settle reply kind) as [ body | error ];
        [ destruct (handleAqaraResponse body) | ]; cbn; intros H;
        by apply list_elem_of_singleton in H.
Qed.

(** X12: with [onlineOnly], list_devices ignores its page arguments: the
    run is that of page 1 with size 100 whatever they are, the only request
    it can send asks for that page, every device it returns is online, and
    the count is the number of devices returned. *)
Theorem list_devices_online_only (pageNum pageSize : Z) (replies : list Reply)
    (now : Z) (store : gmap string Entry) :
  let r := run (list_devices {| ld_pageNum := pageNum; ld_pageSize := pageSize;
                                ld_onlineOnly := true |}) replies now store in
  r = run (list_devices {| ld_pageNum := 1; ld_pageSize := 100;
                           ld_onlineOnly := true |}) replies now store
  /\ (forall request, request ∈ sent r ->
        request = {| intent := "query.device.list"; reqData := PageQuery 1 100 |})
  /\ (forall count devices,
        outcome r = Returned (OnlineDevicesRetrieved count devices) ->
        count = length devices
        /\ Forall (fun device => online device = true) devices).
Proof.
  cbv zeta. split; [ reflexivity | ].
  rewrite run_list_devices_online. cbn [recoverRun mapRun sent outcome].
  split.
  - intros request. exact (sent_cachedFetch KDevices _ _ _ _ _ _ _ request).
  - intros count devices H.
    apply recover_map_returned in H as [ (response & _ & H) | (e & _ & H) ];
      [ | discriminate H ].
    cbv zeta in H. injection H as -> ->. split; [ reflexivity | ].
    apply Forall_forall. intros device Hin.
    apply list_elem_of_In, List.filter_In in Hin. apply Hin.
Qed.

Lemma run_list_scenes args replies now store :
  run (list_scenes args) replies now store =
    recoverRun (fun error => ToolFailed (formatError error))
      (mapRun (fun response =>
                 let scenes := extractList response in
                 let scenes :=
                   if ls_enabledOnly args
                   then List.filter (fun scene => Bool.eqb (enable scene) true) scenes
                   else scenes in
                 ScenesRetrieved (length scenes) scenes)
         (run (cachedFetch KScenes (sceneListKey (ls_pageNum args) (ls_pageSize args))
                 "query.scene.list" (PageQuery (ls_pageNum args) (ls_pageSize args))
                 600) replies now store)).
Proof.
  unfold list_scenes. rewrite run_catch.
  rewrite (run_fmap (fun response =>
             let scenes := extractList response in
             let scenes :=
               if ls_enabledOnly args
               then List.filter (fun scene => Bool.eqb (enable scene) true) scenes
               else scenes in
             ScenesRetrieved (length scenes) scenes)).
  rewrite getSceneList_cachedFetch. reflexivity.
Qed.

(** X13: the scenes list_scenes returns are those of the page it read, in
    their order; with [enabledOnly] exactly the enabled ones, otherwise all
    of them; and the count is the number of scenes returned. *)
Theorem list_scenes_returns_page (args : ListScenesArgs) (replies : list Reply)
    (now : Z) (store : gmap string Entry) (count : nat) (scenes : list Scene) :
  outcome (run (list_scenes args) replies now store)
  = Returned (ScenesRetrieved count scenes) ->
  exists response,
    outcome (run (getSceneList (ls_pageNum args) (ls_pageSize args)) replies now store)
    = Returned response
    /\ count = length scenes
    /\ scenes = (if ls_enabledOnly args
                 then List.filter (fun scene => enable scene) (extractList response)
                 else extractList response)
    /\ (ls_enabledOnly args = true ->
        forall scene, scene ∈ scenes
                      <-> scene ∈ extractList response /\ enable scene = true).
Proof.
  rewrite run_list_scenes, getSceneList_cachedFetch.
  cbn [recoverRun mapRun outcome].
  intros H.
  apply recover_map_returned in H as [ (response & Hout & H) | (e & _ & H) ];
    [ | discriminate H ].
  cbv zeta in H. injection H as -> ->. exists response.
  split; [ exact Hout | ].
  assert (Heqb : List.filter (fun scene => Bool.eqb (enable scene) true)
                   (extractList response)
                 = List.filter (fun scene => enable scene) (extractList response)).
  { apply List.filter_ext. intros scene. destruct (enable scene); reflexivity. }
  rewrite Heqb.
  split; [ reflexivity | split; [ reflexivity | ] ].
  intros Hen scene. rewrite Hen.
  rewrite !list_elem_of_In, List.filter_In. reflexivity.
Qed.

Lemma list_scenes_returns_page_witness :
  let night := {| sceneId := "s1"; sc_name := "Night"; sc_description := None;
                  enable := true; sc_createTime := 0; sc_updateTime := 0 |} in
  let away := {| sceneId := "s2"; sc_name := "Away"; sc_description := None;
                 enable := false; sc_createTime := 0; sc_updateTime := 0 |} in
  let args := {| ls_pageNum := 1; ls_pageSize := 30; ls_enabledOnly := true |} in
  let reply :=
    {| delay := 20;
       settle := fun kind =>
         match kind return HttpOutcome (payload kind) with
         | KScenes =>
             Responded (BodyEnvelope
               {| code := 0; requestId := "r1"; message := "Success";
                  msgDetails := None; result := Some [night; away]; data := None |})
         | _ => Responded BodyNull
         end |} in
  outcome (run (list_scenes args) [reply] 0 ∅) = Returned (ScenesRetrieved 1 [night])
  /\ exists response,
       outcome (run (getSceneList (ls_pageNum args) (ls_pageSize args)) [reply] 0 ∅)
       = Returned response
       /\ 1%nat = length [night]
       /\ [night] = (if ls_enabledOnly args
                     then List.filter (fun scene => enable scene) (extractList response)
                     else extractList response)
       /\ (ls_enabledOnly args = true ->
           forall scene, scene ∈ [night]
                         <-> scene ∈ extractList response /\ enable scene = true).
Proof.
  cbv zeta. split; [ reflexivity | ].
  apply (list_scenes_returns_page
           {| ls_pageNum := 1; ls_pageSize := 30; ls_enabledOnly := true |}).
  reflexivity.
Defined.

(** ** Start-up *)

Lemma truthy_Some (o : option string) :
  JS.truthy o = true <-> exists s, o = Some s /\ s <> "".
Proof.
  destruct o as [ [ | c s ] | ]; cbn.
  - split; [ discriminate | intros (s & H & Hs); injection H as <-; contradiction ].
  - split; [ intros _; eexists; split; [ reflexivity | discriminate ] | reflexivity ].
  - split; [ discriminate | intros (s & H & _); discriminate H ].
Qed.

Lemma validateEnvironment_passes (env : gmap string string) :
  (exists u, validateEnvironment env = Normal u)
  <-> Forall (fun envVar => JS.truthy (env !! envVar) = true) requiredEnvVars.
Proof.
  unfold validateEnvironment, requiredEnvVars, envMissing.
  cbn [List.filter]. cbv zeta.
  destruct (JS.truthy (env !! "AQARA_APP_ID")) eqn:H1;
  destruct (JS.truthy (env !! "AQARA_APP_KEY")) eqn:H2;
  destruct (JS.truthy (env !! "AQARA_KEY_ID")) eqn:H3;
  destruct (JS.truthy (env !! "AQARA_APP_SECRET")) eqn:H4;
  cbn [negb length Z.of_nat Z.ltb Z.compare Pos.of_succ_nat Pos.succ];
  (split;
   [ intros (u & H); try discriminate H;
     repeat (apply Forall_cons; split; [ assumption | ]); apply Forall_nil_2
   | intros HF; try (eexists; reflexivity); exfalso;
     repeat (apply Forall_cons in HF as [ ? HF ]); congruence ]).
Qed.

(** X14: the server gets past start-up exactly when the four credentials
    are set and not empty; otherwise it exits with code 1.  The client is
    then configured with the four values as they are in the environment and
    with the access token of the environment; the region is the one of the
    environment, or "usa" when that is unset or empty. *)
Theorem startup_config (env : gmap string string) :
  ((exists config, startup env = Running config)
   <-> Forall (fun envVar => exists s, env !! envVar = Some s /\ s <> "")
         requiredEnvVars)
  /\ (forall code' stderr, startup env = Exit code' stderr -> code' = 1)
  /\ (forall config, startup env = Running config ->
        env !! "AQARA_APP_ID" = Some (appId config)
        /\ env !! "AQARA_APP_KEY" = Some (appKey config)
        /\ env !! "AQARA_KEY_ID" = Some (keyId config)
        /\ env !! "AQARA_APP_SECRET" = Some (appSecret config)
        /\ accessToken config = env !! "AQARA_ACCESS_TOKEN"
        /\ region config <> ""
        /\ (env !! "AQARA_REGION" = Some (region config)
            \/ region config = "usa" /\ JS.truthy (env !! "AQARA_REGION") = false)).
Proof.
  pose proof (validateEnvironment_passes env) as Hpass.
  assert (Hiff : Forall (fun envVar => JS.truthy (env !! envVar) = true) requiredEnvVars
                 <-> Forall (fun envVar => exists s, env !! envVar = Some s /\ s <> "")
                       requiredEnvVars).
  { apply Forall_iff. intros envVar. apply truthy_Some. }
  rewrite <- Hiff, <- Hpass. clear Hiff.
  unfold startup.
  destruct (validateEnvironment env) as [ [] | error ].
  - split; [ split; intros _; eexists; reflexivity | ].
    split; [ intros ? ? H; discriminate H | ].
    intros config H. injection H as <-.
    cbn [appId appKey keyId appSecret region accessToken].
    assert (HF : Forall (fun envVar => JS.truthy (env !! envVar) = true)
                   requiredEnvVars) by (apply Hpass; eexists; reflexivity).
    unfold requiredEnvVars in HF.
    apply Forall_cons in HF as [ H1 HF ]. apply Forall_cons in HF as [ H2 HF ].
    apply Forall_cons in HF as [ H3 HF ]. apply Forall_cons in HF as [ H4 _ ].
    apply truthy_Some in H1 as (s1 & -> & _). apply truthy_Some in H2 as (s2 & -> & _).
    apply truthy_Some in H3 as (s3 & -> & _). apply truthy_Some in H4 as (s4 & -> & _).
    repeat (split; [ reflexivity | ]).
    destruct (JS.truthy (env !! "AQARA_REGION")) eqn:Hr.
    + apply truthy_Some in Hr as (r & -> & Hne). split; [ exact Hne | left; reflexivity ].
    + split; [ discriminate | right; split; reflexivity ].
  - split; [ split; [ intros (c & H); discriminate H | intros (u & H); discriminate H ] | ].
    split; [ intros ? ? H; injection H as <- _; reflexivity | ].
    intros config H. discriminate H.
Qed.

(** ** The headers of a signed request *)

Section SigningHeaders.

Variable toLowerCase : string -> string.
Variable hmacSha256Hex : string -> string -> string.

(** X15: [signRequest] writes Appid, Keyid, Nonce (as generated, not
    lower-cased), Time, Sign and Lang = "en", and Accesstoken when a token
    is configured; every other header of the request is left as it was, and
    so is an Accesstoken header when no token is configured. *)
Theorem signRequest_headers (config : AqaraConfig) (nonce : string) (timestamp : Z)
    (headers : option (gmap string string)) :
  let signed := signRequest toLowerCase hmacSha256Hex config nonce timestamp headers in
  signed !! "Appid" = Some (appId config)
  /\ signed !! "Keyid" = Some (keyId config)
  /\ signed !! "Nonce" = Some nonce
  /\ signed !! "Time" = Some (JS.numberToString timestamp)
  /\ signed !! "Sign" =
       Some (hmacSha256Hex (appSecret config)
               (signString toLowerCase config nonce timestamp))
  /\ signed !! "Lang" = Some "en"
  /\ signed !! "Accesstoken" =
       (if tokenConfigured config then accessToken config
        else default ∅ headers !! "Accesstoken")
  /\ (forall name, name ∉ signedHeaderNames ->
        signed !! name = default ∅ headers !! name).
Proof.
  cbv zeta. unfold signRequest, tokenConfigured, sign. cbv zeta.
  assert (Htoken : JS.truthy (accessToken config) = true ->
                   Some (default "" (accessToken config)) = accessToken config).
  { destruct (accessToken config); [ reflexivity | discriminate ]. }
  destruct (JS.truthy (accessToken config)).
  - repeat (split;
      [ repeat (rewrite lookup_insert_ne by discriminate);
        try rewrite lookup_insert_eq; try reflexivity; auto | ]).
    intros name Hname. unfold signedHeaderNames in Hname.
    repeat (apply not_elem_of_cons in Hname as [ ? Hname ]).
    repeat (rewrite lookup_insert_ne by congruence). reflexivity.
  - repeat (split;
      [ repeat (rewrite lookup_insert_ne by discriminate);
        try rewrite lookup_insert_eq; try reflexivity | ]).
    intros name Hname. unfold signedHeaderNames in Hname.
    repeat (apply not_elem_of_cons in Hname as [ ? Hname ]).
    repeat (rewrite lookup_insert_ne by congruence). reflexivity.
Qed.

End SigningHeaders.

(** ** Times *)

Lemma parse_in_range (pf : JSDate.Platform) (s : string) (tv : Z) :
  legacyInRange pf -> JSDate.parse pf s = Some tv -> Z.abs tv <= 8640000000000000.
Proof.
  intros Hlegacy. unfold JSDate.parse.
  destruct (JSDate.parseFields s) as [ f | ]; [ | apply Hlegacy ].
  destruct (JSDate.inBounds f); [ | discriminate ].
  assert (Hclip : forall x, JSDate.TimeClip x = Some tv -> Z.abs tv <= 8640000000000000).
  { intros x. unfold JSDate.TimeClip.
    destruct (Z.leb_spec (Z.abs x) 8640000000000000) as [ Hle | _ ]; [ | discriminate ].
    intros Hx. injection Hx as <-. exact Hle. }
  unfold JSDate.timeValue. cbv zeta.
  destruct (JSDate.f_time f) as [ [ [ [ h m ] sec ] ms ] | ]; [ | apply Hclip ].
  destruct (JSDate.f_offset f) as [ [ [ sgn oh ] om ] | ]; apply Hclip.
Qed.

(** X16: [parseTimeString] throws nothing but its own "Invalid time format"
    error, and what it returns is a fixed point: given its own result it
    returns it again.  (The engine's fallback parser is assumed to return
    time values in the range of [Date].) *)
Theorem parseTimeString_idempotent (pf : JSDate.Platform) (timeStr : string) :
  legacyInRange pf ->
  (forall e, parseTimeString pf timeStr = Throw e -> e = Error invalidTimeFormat)
  /\ (forall iso, parseTimeString pf timeStr = Normal iso ->
        parseTimeString pf iso = Normal iso).
Proof.
  intros Hlegacy. unfold parseTimeString, tryCatch.
  destruct (JSDate.parse pf timeStr) as [ tv | ] eqn:Hparse.
  - split; [ intros e H; discriminate H | ].
    intros iso H. injection H as <-.
    rewrite parse_toISOString; [ reflexivity | ].
    exact (parse_in_range pf timeStr tv Hlegacy Hparse).
  - split; [ intros e H; injection H as <-; reflexivity | intros iso H; discriminate H ].
Qed.

Lemma parseTimeString_idempotent_witness :
  legacyInRange JSDate.strictUTC
  /\ parseTimeString JSDate.strictUTC "2024-03-01T08:30:00+02:00"
     = Normal "2024-03-01T06:30:00.000Z"
  /\ parseTimeString JSDate.strictUTC "2024-03-01T06:30:00.000Z"
     = Normal "2024-03-01T06:30:00.000Z".
Proof.
  assert (Hlegacy : legacyInRange JSDate.strictUTC).
  { intros s tv H. discriminate H. }
  split; [ exact Hlegacy | ].
  split; [ vm_compute; reflexivity | ].
  apply (parseTimeString_idempotent JSDate.strictUTC "2024-03-01T08:30:00+02:00" Hlegacy).
  vm_compute. reflexivity.
Defined.

(** ** The device page shared by the prompt, the resources and the tools *)

Lemma run_cachedFetch_hit kind key intent' data' ttl ttl' replies now later base
    (e : AqaraResponse (payload kind)) :
  0 <= now -> 0 < ttl -> later <= now + ttl * 1000 ->
  run (cachedFetch kind key intent' data' ttl') replies later
    (nc_set now base key (inject kind e) ttl)
  = finish (Returned e) (nc_set now base key (inject kind e) ttl) later.
Proof.
  intros Hnow Httl Hlater. rewrite run_cachedFetch.
  pose proof (nc_set_get now later ttl base key (inject kind e) Hnow Httl) as Hget.
  assert (Hle : (later <=? now + ttl * 1000) = true) by (apply Z.leb_le; lia).
  rewrite Hle in Hget. clear Hle.
  unfold nc_get in *. unfold nc_set in Hget at 1. unfold nc_set at 1.
  rewrite lookup_insert_eq in *.
  destruct (expired later {| t := if ttl =? 0 then 0 else now + ttl * 1000;
                             v := inject kind e |}); [ discriminate Hget | ].
  cbn [v]. rewrite project_inject. reflexivity.
Qed.

Lemma run_home_status replies now store :
  run home_status replies now store =
    recoverRun (fun _ => HomeStatusGeneric)
      (mapRun (fun response =>
                 HomeStatusWithCount (lengthOr (data response) (result response)))
         (run (cachedFetch KDevices (deviceListKey 1 100) "query.device.list"
                 (PageQuery 1 100) 300) replies now store)).
Proof.
  unfold home_status.
  rewrite (run_catch (fun _ => HomeStatusGeneric)).
  rewrite (run_fmap (fun response =>
             HomeStatusWithCount (lengthOr (data response) (result response)))).
  rewrite getDeviceList_cachedFetch. reflexivity.
Qed.

(** X17: the device count in the home_status prompt is the number of
    devices [getDevicesByType] returns for the same response, except when
    the response has an empty [data] array beside a non-empty [result]:
    the prompt then counts [result] while [getDevicesByType] returns no
    device. *)
Theorem home_status_count (replies : list Reply) (now : Z)
    (store : gmap string Entry) (response : AqaraResponse (list Device)) :
  outcome (run (getDeviceList 1 100) replies now store) = Returned response ->
  exists deviceCount devices,
    outcome (run home_status replies now store)
    = Returned (HomeStatusWithCount deviceCount)
    /\ outcome (run (getDevicesByType None) replies now store) = Returned devices
    /\ (deviceCount = length devices
        <-> ~ (data response = Some []
               /\ exists device rest, result response = Some (device :: rest))).
Proof.
  intros Hout. rewrite run_home_status, getDevicesByType_fmap, run_fmap.
  rewrite getDeviceList_cachedFetch in *.
  cbn [recoverRun mapRun outcome payload] in *. rewrite !Hout.
  cbn [mapOutcome recoverOutcome].
  eexists _, _. split; [ reflexivity | split; [ reflexivity | ] ].
  unfold lengthOr, extractList.
  destruct (data response) as [ [ | d ds ] | ], (result response) as [ [ | r rs ] | ];
    cbn;
    (split;
     [ intros Heq (Hd & device & rest & Hr);
       try discriminate Hd; try discriminate Hr; discriminate Heq
     | intros Hneg;
       first [ reflexivity
             | exfalso; apply Hneg;
               split; [ reflexivity | eexists _, _; reflexivity ] ] ]).
Qed.

Lemma home_status_count_witness :
  outcome (run (getDeviceList 1 100) [successAfter 50 "r1" ""] 0 ∅)
  = Returned (success "r1" [lamp; sensor])
  /\ exists deviceCount devices,
       outcome (run home_status [successAfter 50 "r1" ""] 0 ∅)
       = Returned (HomeStatusWithCount deviceCount)
       /\ outcome (run (getDevicesByType None) [successAfter 50 "r1" ""] 0 ∅)
          = Returned devices
       /\ (deviceCount = length devices
           <-> ~ (data (success "r1" [lamp; sensor]) = Some []
                  /\ exists device rest,
                       result (success "r1" [lamp; sensor]) = Some (device :: rest))).
Proof.
  split; [ reflexivity | ].
  apply (home_status_count [successAfter 50 "r1" ""] 0 ∅ (success "r1" [lamp; sensor])).
  reflexivity.
Defined.

(** X18: the aqara://devices resource, the online listing and the
    home_status prompt share the cache entry devices_1_100: once the
    resource has fetched the page, the online listing (whatever its page
    arguments) and the prompt are answered from that response without a
    request, for 300 s after the reply. *)
Theorem device_page_is_shared (reply : Reply) (rest replies : list Reply)
    (now later : Z) (store : gmap string Entry)
    (e : AqaraResponse (list Device)) :
  0 <= now ->
  fst (nc_get now store (deviceListKey 1 100)) = None ->
  settle reply KDevices = Responded (BodyEnvelope e) ->
  code e = 0 ->
  later <= now + Z.max 0 (delay reply) + 300 * 1000 ->
  let first := run devices_resource (reply :: rest) now store in
  let online := List.filter (fun device => online device) (extractList e) in
  outcome first = Returned (DeviceListResource e)
  /\ sent first = [ {| intent := "query.device.list"; reqData := PageQuery 1 100 |} ]
  /\ (forall pageNum pageSize,
        let again :=
          run (list_devices {| ld_pageNum := pageNum; ld_pageSize := pageSize;
                               ld_onlineOnly := true |})
            replies later (store_after first) in
        sent again = []
        /\ outcome again = Returned (OnlineDevicesRetrieved (length online) online))
  /\ (let again := run home_status replies later (store_after first) in
      sent again = []
      /\ outcome again = Returned (HomeStatusWithCount (lengthOr (data e) (result e)))).
Proof.
  intros Hnow Hmiss Hsettle Hcode Hlater. cbv zeta.
  unfold devices_resource. rewrite run_catch, run_fmap, getDeviceList_cachedFetch.
  rewrite (run_cachedFetch_miss_success KDevices _ _ _ _ _ _ _ _ e Hmiss Hsettle Hcode).
  cbn [recoverRun mapRun outcome sent store_after mapOutcome recoverOutcome].
  split; [ reflexivity | split; [ reflexivity | ] ].
  assert (Hhit : forall ttl',
            run (cachedFetch KDevices (deviceListKey 1 100) "query.device.list"
                   (PageQuery 1 100) ttl') replies later
              (nc_set (now + Z.max 0 (delay reply))
                 (snd (nc_get now store (deviceListKey 1 100))) (deviceListKey 1 100)
                 (inject KDevices e) 300)
            = finish (Returned e)
                (nc_set (now + Z.max 0 (delay reply))
                   (snd (nc_get now store (deviceListKey 1 100))) (deviceListKey 1 100)
                   (inject KDevices e) 300) later).
  { intros ttl'. apply (run_cachedFetch_hit KDevices); lia. }
  split.
  - intros pageNum pageSize. rewrite run_list_devices_online, Hhit.
    split; reflexivity.
  - rewrite run_home_status, Hhit. split; reflexivity.
Qed.

Lemma device_page_is_shared_witness :
  0 <= 1000
  /\ 200000 <= 1000 + Z.max 0 (delay (successAfter 50 "r1" "")) + 300 * 1000
  /\ outcome (run devices_resource [successAfter 50 "r1" ""] 1000 ∅)
     = Returned (DeviceListResource (success "r1" [lamp; sensor]))
  /\ sent (run devices_resource [successAfter 50 "r1" ""] 1000 ∅)
     = [ {| intent := "query.device.list"; reqData := PageQuery 1 100 |} ]
  /\ (forall pageNum pageSize,
        sent (run (list_devices {| ld_pageNum := pageNum; ld_pageSize := pageSize;
                                   ld_onlineOnly := true |})
                [] 200000
                (store_after (run devices_resource [successAfter 50 "r1" ""] 1000 ∅)))
        = []
        /\ outcome (run (list_devices {| ld_pageNum := pageNum; ld_pageSize := pageSize;
                                         ld_onlineOnly := true |})
                      [] 200000
                      (store_after (run devices_resource [successAfter 50 "r1" ""] 1000 ∅)))
           = Returned (OnlineDevicesRetrieved 1 [lamp]))
  /\ sent (run home_status [] 200000
             (store_after (run devices_resource [successAfter 50 "r1" ""] 1000 ∅))) = []
  /\ outcome (run home_status [] 200000
                (store_after (run devices_resource [successAfter 50 "r1" ""] 1000 ∅)))
     = Returned (HomeStatusWithCount 2).
Proof.
  split; [ lia | ]. split; [ cbn; lia | ].
  apply (device_page_is_shared (successAfter 50 "r1" "") [] [] 1000 200000 ∅
           (success "r1" [lamp; sensor])).
  - lia.
  - reflexivity.
  - reflexivity.
  - reflexivity.
  - cbn. lia.
Defined.

(** ** Overlapping calls *)

Lemma nc_get_miss_again now store key :
  fst (nc_get now store key) = None ->
  nc_get now (snd (nc_get now store key)) key = (None, snd (nc_get now store key)).
Proof.
  unfold nc_get. destruct (store !! key) as [ entry | ] eqn:Hkey.
  - destruct (expired now entry); [ | discriminate ].
    intros _. cbn [snd]. rewrite lookup_delete_eq. reflexivity.
  - intros _. cbn [snd]. rewrite Hkey. reflexivity.
Qed.

(** The synchronous part of a cached read that misses suspends at its POST;
    when the POST brings a success envelope, the rest stores it and
    returns it. *)
Lemma advance_read_miss (c : CachedRead) now store :
  fst (nc_get now store (readKey c)) = None ->
  exists resume,
    advance (readOperation c) (perform (readOperation c)) now store =
      (snd (nc_get now store (readKey c)),
       inl {| task_op := readOperation c; task_kind := readKind c;
              task_request := readRequest c; task_resume := resume |})
    /\ forall e now' store',
         code e = 0 ->
         advance (readOperation c) (resume (Responded (BodyEnvelope e))) now' store' =
           (nc_set now' store' (readKey c) (inject (readKind c) e) (readTtl c),
            inr (Returned (ResResponse (inject (readKind c) e)))).
Proof.
  intros Hmiss.
  destruct c as [ p s | d | p s ];
    cbn [readOperation readKey readKind readRequest readTtl perform fmap_prog
         getDeviceList getDeviceStatus getSceneList cacheGetAs bind advance] in *;
    (destruct (nc_get now store _) as [ [ hit | ] store0 ];
     [ discriminate Hmiss | ]);
    cbn [snd makeRequest bind advance];
    (eexists; split; [ reflexivity | ]);
    intros e now' store' Hcode; cbn beta; cbn [lift bind];
    unfold handleAqaraResponse; rewrite Hcode; reflexivity.
Qed.

(** X19: overlapping misses are not coalesced.  When a cached read is
    called twice before the first POST has settled, both calls send the
    request; each returns the response of its own POST, and the cache keeps
    the response that arrived last. *)
Theorem overlapping_misses_fetch_twice (c : CachedRead) (w : World)
    (reply1 reply2 : forall kind, HttpOutcome (payload kind))
    (e1 e2 : AqaraResponse (payload (readKind c))) :
  fst (nc_get (clock w) (store w) (readKey c)) = None ->
  reply1 (readKind c) = Responded (BodyEnvelope e1) -> code e1 = 0 ->
  reply2 (readKind c) = Responded (BodyEnvelope e2) -> code e2 = 0 ->
  let op := readOperation c in
  let n := length (inflight w) in
  let r := steps w [Call op; Call op; Settle n reply1; Settle n reply2] in
  snd r = [ Sent op (readRequest c); Sent op (readRequest c);
            Done op (Returned (ResResponse (inject (readKind c) e1)));
            Done op (Returned (ResResponse (inject (readKind c) e2))) ]
  /\ v <$> store (fst r) !! readKey c = Some (inject (readKind c) e2)
  /\ inflight (fst r) = inflight w.
Proof.
  intros Hmiss Hr1 He1 Hr2 He2. cbv zeta.
  destruct (advance_read_miss c (clock w) (store w) Hmiss) as (k1 & Hadv1 & Hk1).
  pose proof (nc_get_miss_again _ _ _ Hmiss) as Hagain.
  assert (Hmiss' : fst (nc_get (clock w) (snd (nc_get (clock w) (store w) (readKey c)))
                          (readKey c)) = None) by (rewrite Hagain; reflexivity).
  destruct (advance_read_miss c (clock w) _ Hmiss') as (k2 & Hadv2 & Hk2).
  rewrite Hagain in Hadv2. cbn [snd] in Hadv2.
  cbn [steps step]. rewrite Hadv1. cbn [settled store clock inflight task_request].
  rewrite Hadv2. cbn [settled store clock inflight task_request].
  rewrite <- (assoc_L (++)). cbn [app].
  rewrite list_lookup_middle by reflexivity.
  cbn [task_op task_kind task_resume]. rewrite Hr1, (Hk1 e1 _ _ He1).
  cbn [settled store clock inflight].
  rewrite delete_middle.
  rewrite list_lookup_middle by reflexivity.
  cbn [task_op task_kind task_resume]. rewrite Hr2, (Hk2 e2 _ _ He2).
  cbn [settled store clock inflight fst snd app].
  rewrite delete_middle, app_nil_r.
  split; [ reflexivity | split; [ | reflexivity ] ].
  unfold nc_set. rewrite lookup_insert_eq. reflexivity.
Qed.

Lemma overlapping_misses_fetch_twice_witness :
  let c := ReadDeviceStatus "d1" in
  let w := {| store := ∅; clock := 0; inflight := [] |} in
  let reply1 := settle (successAfter 0 "r1" "on") in
  let reply2 := settle (successAfter 0 "r2" "off") in
  fst (nc_get (clock w) (store w) (readKey c)) = None
  /\ snd (steps w [Call (readOperation c); Call (readOperation c);
                   Settle 0 reply1; Settle 0 reply2])
     = [ Sent (readOperation c) (readRequest c); Sent (readOperation c) (readRequest c);
         Done (readOperation c) (Returned (ResResponse (RAny (success "r1" "on"))));
         Done (readOperation c) (Returned (ResResponse (RAny (success "r2" "off")))) ]
  /\ v <$> store (fst (steps w [Call (readOperation c); Call (readOperation c);
                                Settle 0 reply1; Settle 0 reply2])) !! readKey c
     = Some (RAny (success "r2" "off"))
  /\ inflight (fst (steps w [Call (readOperation c); Call (readOperation c);
                             Settle 0 reply1; Settle 0 reply2])) = inflight w.
Proof.
  cbv zeta. split; [ reflexivity | ].
  apply (overlapping_misses_fetch_twice (ReadDeviceStatus "d1")
           {| store := ∅; clock := 0; inflight := [] |}
           (settle (successAfter 0 "r1" "on")) (settle (successAfter 0 "r2" "off"))
           (success "r1" "on") (success "r2" "off")); reflexivity.
Defined.

(** X20: the invalidation of [controlDevice] does not reach a status read
    that is already in flight.  When the read was called first and its
    POST settles after the control call was made, the status it carries is
    cached under the key the control call had just cleared, and the next
    status read returns it without a request. *)
Theorem inflight_status_outlives_control (deviceId resourceId : string)
    (value : ResourceValue) (w : World)
    (reply : forall kind, HttpOutcome (payload kind)) (e : AqaraResponse Any) :
  fst (nc_get (clock w) (store w) (deviceStatusKey deviceId)) = None ->
  reply KAny = Responded (BodyEnvelope e) ->
  code e = 0 ->
  let read := OpGetDeviceStatus deviceId in
  let control := OpControlDevice deviceId resourceId value in
  let r := steps w [Call read; Call control; Settle (length (inflight w)) reply] in
  snd r = [ Sent read {| intent := "query.device.info";
                         reqData := DeviceInfoQuery [deviceId] |};
            Sent control {| intent := "write.device.resource";
                            reqData := ResourceWrite deviceId
                                         [(deviceId, resourceId, value)] |};
            Done read (Returned (ResResponse (RAny e))) ]
  /\ v <$> store (fst r) !! deviceStatusKey deviceId = Some (RAny e)
  /\ snd (step (fst r) (Call read)) = [ Done read (Returned (ResResponse (RAny e))) ].
Proof.
  intros Hmiss Hreply Hcode. cbv zeta.
  destruct (advance_read_miss (ReadDeviceStatus deviceId) (clock w) (store w) Hmiss)
    as (k1 & Hadv1 & Hk1).
  cbn [readOperation readKey readKind readRequest readTtl inject] in Hadv1, Hk1.
  cbn [steps step]. rewrite Hadv1. cbn [settled store clock inflight task_request].
  destruct (advance_controlDevice deviceId resourceId value (clock w)
              (snd (nc_get (clock w) (store w) (deviceStatusKey deviceId))))
    as (k2 & Hadv2 & _).
  cbv zeta in Hadv2. rewrite Hadv2.
  cbn [settled store clock inflight task_request].
  rewrite <- (assoc_L (++)). cbn [app].
  rewrite list_lookup_middle by reflexivity.
  cbn [task_op task_kind task_resume]. rewrite Hreply, (Hk1 e _ _ Hcode).
  cbn [settled store clock inflight fst snd app].
  split; [ reflexivity | ].
  split; [ unfold nc_set; rewrite lookup_insert_eq; reflexivity | ].
  set (base := delete (deviceStatusKey deviceId)
                 (snd (nc_get (clock w) (store w) (deviceStatusKey deviceId)))).
  cbn [step store clock inflight perform fmap_prog getDeviceStatus cacheGetAs bind
       advance].
  unfold nc_get, nc_set. rewrite lookup_insert_eq.
  unfold expired. cbn [t v].
  replace (30 =? 0) with false by reflexivity.
  assert (Hfresh : negb (clock w + 30 * 1000 =? 0)
                   && (clock w + 30 * 1000 <? clock w) = false).
  { apply andb_false_iff. right. apply Z.ltb_ge. lia. }
  rewrite Hfresh. reflexivity.
Qed.

Lemma inflight_status_outlives_control_witness :
  let w := {| store := ∅; clock := 0; inflight := [] |} in
  let read := OpGetDeviceStatus "d1" in
  let control := OpControlDevice "d1" "4.1.85" (ValBool true) in
  let r := steps w [Call read; Call control;
                    Settle 0 (settle (successAfter 0 "r1" "off"))] in
  fst (nc_get (clock w) (store w) (deviceStatusKey "d1")) = None
  /\ snd r = [ Sent read {| intent := "query.device.info";
                            reqData := DeviceInfoQuery ["d1"] |};
               Sent control {| intent := "write.device.resource";
                               reqData := ResourceWrite "d1"
                                            [("d1", "4.1.85", ValBool true)] |};
               Done read (Returned (ResResponse (RAny (success "r1" "off")))) ]
  /\ v <$> store (fst r) !! deviceStatusKey "d1" = Some (RAny (success "r1" "off"))
  /\ snd (step (fst r) (Call read))
     = [ Done read (Returned (ResResponse (RAny (success "r1" "off")))) ].
Proof.
  cbv zeta. split; [ reflexivity | ].
  apply (inflight_status_outlives_control "d1" "4.1.85" (ValBool true)
           {| store := ∅; clock := 0; inflight := [] |}
           (settle (successAfter 0 "r1" "off")) (success "r1" "off")); reflexivity.
Defined.

(** ** The rate limiter *)














(** Ten calls submitted at once, and the limiter asked to start one every
    100 ms: call [n] starts at [200 * n] ms, and while no reply comes the
    fourth call and those after it stay queued. *)
Example limiter_ten_calls :
  let calls := List.repeat (LCall (OpExecuteScene "s1")) 10 in
  let ticks := List.concat (List.repeat [LStart; LElapse 100] 8) in
  let r := lsteps (initialLimited 0) (calls ++ ticks) in
  startTimes (snd r) = [0; 200; 400]
  /\ length (l_executing (fst r)) = 3%nat
  /\ length (l_queued (fst r)) = 7%nat.
Proof. vm_compute. repeat split; reflexivity. Qed.
